(** * ChatInterface: the streaming chat session of chat-rag

    A shallow embedding of [ChatInterface.tsx] (the React component that
    sends a question to the [/stream] endpoint and folds the streamed
    answer into the transcript), followed by the properties of the
    specification that concern it.

    Conventions of the embedding.
    - A JavaScript string is the list of its UTF-16 code units.
    - The component state ([useState] cells) is a record; a handler runs
      against the values captured by its closure at render time and
      issues updates to the committed state.
    - [handleSendMessage] is written in a small monad that carries the
      committed state, the local variable [assistantContent], the clock /
      random oracle position and a log of the observable effects
      (transcript updates, [fetch] calls, [console.warn] calls).
    - Host services whose behaviour is not part of the repository
      ([JSON.parse], [TextDecoder], number formatting of doubles) are
      the fields of a [Platform] record the handler is parameterised by;
      [Host.platform] is an instance the examples run on. *)

From Stdlib Require Import String Ascii NArith ZArith Bool List Lia.
From Stdlib.Strings Require Import Byte.
From Stdlib.Numbers Require Import DecimalN.
Import ListNotations.

Set Implicit Arguments.

(* ================================================================= *)
(** ** JavaScript strings and arrays *)

Module JS.

(** A string value: its sequence of UTF-16 code units. *)
Definition jsstring := list N.

(** An ASCII literal of the source as a [jsstring]. *)
Definition lit (s : string) : jsstring :=
map N_of_ascii (list_ascii_of_string s).

Definition code_eqb (a b : N) : bool := N.eqb a b.

Fixpoint eqb (s t : jsstring) : bool :=
match s, t with
| [], [] => true
| a :: s', b :: t' => code_eqb a b && eqb s' t'
| _, _ => false
end.

(** ToBoolean on a string: every string but the empty one is truthy. *)
Definition ToBoolean (s : jsstring) : bool := negb (eqb s []).

(** [String.prototype.startsWith(p)]. *)
Fixpoint startsWith (p s : jsstring) : bool :=
match p, s with
| [], _ => true
| a :: p', b :: s' => code_eqb a b && startsWith p' s'
| _ :: _, [] => false
end.

(** [Array.prototype.slice(start)] and [String.prototype.slice(start)]
  with a single argument: a negative [start] counts from the end, and
  the relative index is clamped to the length. *)
Definition slice {A : Type} (start : Z) (l : list A) : list A :=
let len := Z.of_nat (length l) in
let k := if (start <? 0)%Z then Z.max (len + start) 0 else Z.min start len in
skipn (Z.to_nat k) l.

(** [String.prototype.substr(start, length)] for non-negative arguments. *)
Definition substr (start len : nat) (s : jsstring) : jsstring :=
firstn len (skipn start s).

(** [String.prototype.split(sep)] for a one-code-unit separator: the
  pieces between separators, a trailing separator giving a final empty
  piece. *)
Fixpoint split (sep : N) (s : jsstring) : list jsstring :=
match s with
| [] => [[]]
| c :: s' =>
    if code_eqb c sep then [] :: split sep s'
    else match split sep s' with
         | [] => [[c]]
         | piece :: pieces => (c :: piece) :: pieces
         end
end.

(** ECMAScript WhiteSpace and LineTerminator code points, the ones
  [String.prototype.trim] strips. *)
Definition isWhiteSpace (c : N) : bool :=
existsb (N.eqb c)
  [9; 10; 11; 12; 13; 32; 160; 5760; 8232; 8233; 8239; 8287; 12288; 65279]%N
|| ((8192 <=? c) && (c <=? 8202))%N.

Fixpoint trimStart (s : jsstring) : jsstring :=
match s with
| c :: s' => if isWhiteSpace c then trimStart s' else s
| [] => []
end.

Definition trimEnd (s : jsstring) : jsstring := rev (trimStart (rev s)).

Definition trim (s : jsstring) : jsstring := trimEnd (trimStart s).

(** Decimal digits of a natural number: [Number.prototype.toString()] on
  the non-negative integers the component formats (a millisecond clock
  value, an HTTP status). *)
Fixpoint digits (u : Decimal.uint) : jsstring :=
match u with
| Decimal.Nil => []
| Decimal.D0 u => 48%N :: digits u
| Decimal.D1 u => 49%N :: digits u
| Decimal.D2 u => 50%N :: digits u
| Decimal.D3 u => 51%N :: digits u
| Decimal.D4 u => 52%N :: digits u
| Decimal.D5 u => 53%N :: digits u
| Decimal.D6 u => 54%N :: digits u
| Decimal.D7 u => 55%N :: digits u
| Decimal.D8 u => 56%N :: digits u
| Decimal.D9 u => 57%N :: digits u
end.

Definition integer_toString (n : N) : jsstring := digits (N.to_uint n).

End JS.

Import JS.

(* ================================================================= *)
(** ** Values produced by [JSON.parse] *)

(** A JSON number is kept as the decimal value its literal denotes,
    [(-1)^negative * mantissa * 10^exponent]; how the platform rounds it
    to a double, tests it and prints it is left to the platform
    parameters below. *)
Record number := { negative : bool; mantissa : N; exponent : Z }.

Unset Elimination Schemes.
Inductive json :=
| JNull
| JBool (b : bool)
| JNum (n : number)
| JStr (s : jsstring)
| JArr (items : list json)
| JObj (members : list (jsstring * json)).
Set Elimination Schemes.

(** The result of a property read: [None] is [undefined]. *)
Definition value := option json.

(** Thrown values.  [Error m] is an [Error] instance whose [message] is
    [m] (this covers the rejections of [fetch] and of [reader.read()],
    and [new Error(m)]); [Native k] is an error raised by the platform
    itself, with a message of the platform's choosing. *)
Inductive native := SyntaxError | TypeError.

Inductive exn :=
| Error (message : jsstring)
| Native (k : native)
| NonError.

(** Own property of an object literal; of duplicate keys the last one
    wins, as in [JSON.parse]. *)
Fixpoint own (members : list (jsstring * json)) (key : jsstring) : value :=
  match members with
  | [] => None
  | (k, v) :: rest =>
      match own rest key with
      | Some v' => Some v'
      | None => if JS.eqb k key then Some v else None
      end
  end.

(** [data.key] for a key that no built-in prototype defines (the handler
    reads [error], [chunk] and [done]): a [TypeError] on [null], the own
    property on an object, [undefined] on everything else. *)
Definition Get (data : json) (key : jsstring) : exn + value :=
  match data with
  | JNull => inl (Native TypeError)
  | JObj members => inr (own members key)
  | _ => inr None
  end.

Section Coercions.

(** ToBoolean and ToString on a number (a double on the platform). *)
Variable Number_ToBoolean : number -> bool.
Variable Number_ToString : number -> jsstring.

(** ToBoolean. *)
Definition ToBoolean (v : value) : bool :=
  match v with
  | None => false
  | Some JNull => false
  | Some (JBool b) => b
  | Some (JNum n) => Number_ToBoolean n
  | Some (JStr s) => JS.ToBoolean s
  | Some (JArr _) => true
  | Some (JObj _) => true
  end.

(** ToString on a parsed value; [None] stands for the [TypeError] of
    ToPrimitive on an object whose own [toString] member hides
    [Object.prototype.toString] (a parsed member is never callable).
    An array prints through [join]: [null] elements print as the empty
    string, the separator is a comma. *)
Fixpoint ToString (v : json) : option jsstring :=
  match v with
  | JNull => Some (lit "null")
  | JBool true => Some (lit "true")
  | JBool false => Some (lit "false")
  | JNum n => Some (Number_ToString n)
  | JStr s => Some s
  | JArr items =>
      (fix join (l : list json) : option jsstring :=
         match l with
         | [] => Some []
         | x :: rest =>
             let first := match x with JNull => Some [] | _ => ToString x end in
             match first, rest with
             | None, _ => None
             | Some s, [] => Some s
             | Some s, _ :: _ =>
                 match join rest with
                 | Some r => Some (s ++ lit "," ++ r)
                 | None => None
                 end
             end
         end) items
  | JObj members =>
      match own members (lit "toString") with
      | Some _ => None
      | None => Some (lit "[object Object]")
      end
  end.

End Coercions.

(* ================================================================= *)
(** ** Data model of the component *)

Inductive Role := user | assistant.

Module Message.
Record t := mk { id : jsstring; content : jsstring; role : Role; timestamp : N }.
End Message.

Module ConversationHistory.
Record t := mk { role : Role; content : jsstring }.
End ConversationHistory.

(** Body of the [POST /stream] request, before [JSON.stringify]. *)
Module ChatRequest.
Record t := mk { message : jsstring;
                 conversation_history : list ConversationHistory.t }.
End ChatRequest.

(** The [useState] cells of [ChatInterface]. *)
Record State := {
  messages : list Message.t;
  inputMessage : jsstring;
  isLoading : bool;
  isStreaming : bool;
  error : option jsstring
}.

(** The greeting the transcript starts with. *)
Definition greeting (now : N) : Message.t :=
  Message.mk (lit "1")
    ([161%N] ++ lit "Hola! Soy tu asistente de documentos. Puedes preguntarme sobre cualquier informaci"
     ++ [243%N] ++ lit "n contenida en los documentos que has subido. "
     ++ [191%N] ++ lit "En qu" ++ [233%N] ++ lit " puedo ayudarte?")
    assistant now.

Definition initialState (now : N) : State :=
  {| messages := [greeting now];
     inputMessage := [];
     isLoading := false;
     isStreaming := false;
     error := None |}.

(** The response body as the reader delivers it: the raw chunks of the
    successive [read()] calls, then either end-of-data ([done: true]) or
    a rejected read. *)
Inductive StreamEnd := EndOfData | ReadError (e : exn).

Record ReadableStream := { chunks : list (list byte); ending : StreamEnd }.

Record Response := {
  status : N;
  statusText : jsstring;
  body : option ReadableStream
}.

(** [response.ok]: the status is in the range 200-299. *)
Definition ok (r : Response) : bool :=
  ((200 <=? status r) && (status r <=? 299))%N.

(** What the handler cannot decide: the base URL it was given, the clock
    and the random source (indexed by the number of draws so far), and
    the answer of the network to a request. *)
Record World := {
  apiUrl : jsstring;
  Date_now : nat -> N;
  Math_random_toString36 : nat -> jsstring;
  network : jsstring -> ChatRequest.t -> exn + Response
}.

(** Observable effects, in the order they happen. *)
Inductive Effect :=
| SetMessages (next : list Message.t)
| Fetch (url : jsstring) (request : ChatRequest.t)
| ConsoleWarn (e : exn).

(** [messages.slice(-limit).map(msg => ({role, content}))]: the source
    fixes [limit] to 6. *)
Definition project (msg : Message.t) : ConversationHistory.t :=
  ConversationHistory.mk (Message.role msg) (Message.content msg).

Definition recentHistory (limit : Z) (messages : list Message.t)
  : list ConversationHistory.t :=
  map project (slice (- limit) messages).

Definition getConversationHistory (messages : list Message.t)
  : list ConversationHistory.t :=
  recentHistory 6 messages.

(* ================================================================= *)
(** ** The handler monad *)

(** What one invocation of [handleSendMessage] works on: the committed
    component state, its local variable [assistantContent], the position
    in the clock / random oracle, and the effects so far (oldest
    first). *)
Record Machine := {
  state : State;
  assistantContent : jsstring;
  tick : nat;
  log : list Effect
}.

Inductive Completion (A : Type) :=
| Normal (a : A)
| Throw (e : exn).
Arguments Normal {A} a.
Arguments Throw {A} e.

Definition M (A : Type) := Machine -> Completion A * Machine.

Definition ret {A} (a : A) : M A := fun m => (Normal a, m).

Definition bind {A B} (c : M A) (k : A -> M B) : M B :=
  fun m => match c m with
           | (Normal a, m') => k a m'
           | (Throw e, m') => (Throw e, m')
           end.

Definition throw {A} (e : exn) : M A := fun m => (Throw e, m).

(** [try { body } catch (e) { handler e }]: what [body] did to the
    machine before throwing stays done. *)
Definition try_catch {A} (body : M A) (handler : exn -> M A) : M A :=
  fun m => match body m with
           | (Normal a, m') => (Normal a, m')
           | (Throw e, m') => handler e m'
           end.

Declare Scope handler_scope.
Delimit Scope handler_scope with handler.
Notation "x <- c ;; k" := (bind c (fun x => k))
  (at level 61, c at next level, right associativity) : handler_scope.
Notation "c ;; k" := (bind c (fun _ => k))
  (at level 61, right associativity) : handler_scope.
Local Open Scope handler_scope.

Definition lift {A} (r : exn + A) : M A :=
  match r with
  | inl e => throw e
  | inr a => ret a
  end.

Definition emit (e : Effect) : M unit :=
  fun m => (Normal tt, {| state := state m; assistantContent := assistantContent m;
                          tick := tick m; log := log m ++ [e] |}).

Definition update (f : State -> State) : M unit :=
  fun m => (Normal tt, {| state := f (state m); assistantContent := assistantContent m;
                          tick := tick m; log := log m |}).

Definition draw : M nat :=
  fun m => (Normal (tick m), {| state := state m; assistantContent := assistantContent m;
                                tick := S (tick m); log := log m |}).

Definition assign_assistantContent (s : jsstring) : M unit :=
  fun m => (Normal tt, {| state := state m; assistantContent := s;
                          tick := tick m; log := log m |}).

Definition read_assistantContent : M jsstring :=
  fun m => (Normal (assistantContent m), m).

(** The state setters.  [setMessages] takes an updater and is applied to
    the committed transcript, which it also reports.  The updater is
    applied when it is issued; React may apply it at the next render
    instead, by which time [assistantContent] can only have grown by the
    later fragments of the same read, and the last update of such a batch
    writes the same transcript either way, so the committed state after
    each read, and at the end, is the one computed here. *)
Definition setMessages (f : list Message.t -> list Message.t) : M unit :=
  update (fun s => {| messages := f (messages s); inputMessage := inputMessage s;
                      isLoading := isLoading s; isStreaming := isStreaming s;
                      error := error s |}) ;;
  (fun m => emit (SetMessages (messages (state m))) m).

Definition setInputMessage (v : jsstring) : M unit :=
  update (fun s => {| messages := messages s; inputMessage := v;
                      isLoading := isLoading s; isStreaming := isStreaming s;
                      error := error s |}).

Definition setIsLoading (v : bool) : M unit :=
  update (fun s => {| messages := messages s; inputMessage := inputMessage s;
                      isLoading := v; isStreaming := isStreaming s;
                      error := error s |}).

Definition setIsStreaming (v : bool) : M unit :=
  update (fun s => {| messages := messages s; inputMessage := inputMessage s;
                      isLoading := isLoading s; isStreaming := v;
                      error := error s |}).

Definition setError (v : option jsstring) : M unit :=
  update (fun s => {| messages := messages s; inputMessage := inputMessage s;
                      isLoading := isLoading s; isStreaming := isStreaming s;
                      error := v |}).

Definition consoleWarn (e : exn) : M unit := emit (ConsoleWarn e).

(** Whether the loop body has executed the handler's [return]. *)
Inductive Control := Continue | Return.

(** [{ ...msg, content }] for the message with the given id. *)
Definition withContent (assistantMessageId content : jsstring) (msg : Message.t)
  : Message.t :=
  if JS.eqb (Message.id msg) assistantMessageId
  then Message.mk (Message.id msg) content (Message.role msg) (Message.timestamp msg)
  else msg.

(* ================================================================= *)
(** ** The platform *)

(** The services of the JavaScript host the handler calls. *)
Record Platform := mkPlatform {
  (** ToBoolean and ToString on a number (a double on the host). *)
  Number_ToBoolean : number -> bool;
  Number_ToString : number -> jsstring;
  (** [JSON.parse]; [None] is its [SyntaxError]. *)
  JSON_parse : jsstring -> option json;
  (** The [message] of an error raised by the host. *)
  native_message : native -> jsstring;
  (** [new TextDecoder()] and [decoder.decode(value, { stream: true })]:
      the decoder keeps what it needs between calls. *)
  TextDecoder : Type;
  new_TextDecoder : TextDecoder;
  decode : TextDecoder -> list byte -> jsstring * TextDecoder
}.

(* ================================================================= *)
(** ** [handleSendMessage] *)

Section Handler.

Variable platform : Platform.
Variable world : World.

(** *** Helpers of the component *)

Definition Date_now_ : M N :=
  i <- draw ;; ret (Date_now world i).

Definition Math_random_toString36_ : M jsstring :=
  i <- draw ;; ret (Math_random_toString36 world i).

(** [Date.now().toString() + Math.random().toString(36).substr(2, 9)] *)
Definition generateId : M jsstring :=
  now <- Date_now_ ;;
  r <- Math_random_toString36_ ;;
  ret (integer_toString now ++ substr 2 9 r).

(** [fetch(url, { method: 'POST', ..., body })] *)
Definition fetch (url : jsstring) (request : ChatRequest.t) : M Response :=
  emit (Fetch url request) ;;
  lift (network world url request).

Definition parse (text : jsstring) : M json :=
  match JSON_parse platform text with
  | Some data => ret data
  | None => throw (Native SyntaxError)
  end.

Definition toString (v : value) : M jsstring :=
  match v with
  | None => ret (lit "undefined")
  | Some j =>
      match ToString (Number_ToString platform) j with
      | Some s => ret s
      | None => throw (Native TypeError)
      end
  end.

Definition truthy : value -> bool := ToBoolean (Number_ToBoolean platform).

(** *** The body of [for (const line of lines)] *)

Definition dispatch (assistantMessageId line : jsstring) : M Control :=
  if startsWith (lit "data: ") line then
    try_catch
      (data <- parse (slice 6 line) ;;
       err <- lift (Get data (lit "error")) ;;
       (if truthy err
        then (message <- toString err ;; throw (Error message))
        else ret tt) ;;
       chunk <- lift (Get data (lit "chunk")) ;;
       done <- lift (Get data (lit "done")) ;;
       (if truthy chunk && negb (truthy done)
        then (piece <- toString chunk ;;
              before <- read_assistantContent ;;
              assign_assistantContent (before ++ piece) ;;
              content <- read_assistantContent ;;
              setMessages (map (withContent assistantMessageId content)))
        else ret tt) ;;
       (if truthy done
        then (setIsStreaming false ;; ret Return)
        else ret Continue))
      (fun parseError => consoleWarn parseError ;; ret Continue)
  else ret Continue.

Fixpoint forLines (assistantMessageId : jsstring) (lines : list jsstring)
  : M Control :=
  match lines with
  | [] => ret Continue
  | line :: rest =>
      c <- dispatch assistantMessageId line ;;
      match c with
      | Return => ret Return
      | Continue => forLines assistantMessageId rest
      end
  end.

(** *** The [while (true)] loop over [reader.read()] *)

Definition endOfReads (last : StreamEnd) : M unit :=
  match last with
  | EndOfData => ret tt
  | ReadError e => throw e
  end.

Fixpoint readLoop (assistantMessageId : jsstring) (decoder : TextDecoder platform)
    (reads : list (list byte)) (last : StreamEnd) : M unit :=
  match reads with
  | [] => endOfReads last
  | value :: rest =>
      let (chunk, decoder') := decode platform decoder value in
      let lines := split 10 chunk in
      c <- forLines assistantMessageId lines ;;
      match c with
      | Return => ret tt
      | Continue => readLoop assistantMessageId decoder' rest last
      end
  end.

(** *** The handler

    [closure] holds the values of the state cells the handler captured
    when the component last rendered; it reads [inputMessage],
    [isLoading], [isStreaming] and (in [getConversationHistory])
    [messages] from there. *)

Definition caught_message (e : exn) : jsstring :=
  match e with
  | Error message => message
  | Native k => native_message platform k
  | NonError => lit "Error desconocido"
  end.

Definition handleSendMessage (closure : State) : M unit :=
  if negb (JS.ToBoolean (trim (inputMessage closure)))
     || isLoading closure || isStreaming closure
  then ret tt
  else
    id <- generateId ;;
    now <- Date_now_ ;;
    let userMessage :=
      Message.mk id (trim (inputMessage closure)) user now in
    setMessages (fun prev => prev ++ [userMessage]) ;;
    setInputMessage [] ;;
    setIsLoading true ;;
    setIsStreaming true ;;
    setError None ;;
    try_catch
      (response <- fetch (apiUrl world ++ lit "/stream")
                     (ChatRequest.mk (Message.content userMessage)
                        (getConversationHistory (messages closure))) ;;
       if negb (ok response)
       then throw (Error (lit "HTTP " ++ integer_toString (status response)
                          ++ lit ": " ++ statusText response))
       else
         assistantMessageId <- generateId ;;
         now' <- Date_now_ ;;
         let assistantMessage :=
           Message.mk assistantMessageId [] assistant now' in
         setMessages (fun prev => prev ++ [assistantMessage]) ;;
         setIsLoading false ;;
         match body response with
         | None =>
             throw (Error (lit "No se pudo leer la respuesta del servidor"))
         | Some reader =>
             assign_assistantContent [] ;;
             readLoop assistantMessageId (new_TextDecoder platform)
               (chunks reader) (ending reader)
         end)
      (fun error =>
         setError (Some (caught_message error)) ;;
         setIsLoading false ;;
         setIsStreaming false).

(** One invocation from a render whose state is [s]: the closure and
    the committed state agree when the handler starts. *)
Definition start (s : State) : Machine :=
  {| state := s; assistantContent := []; tick := 0; log := [] |}.

Definition submit (s : State) : Machine :=
  snd (handleSendMessage s (start s)).

End Handler.

(** The session state of the specification, read off the state cells:
    both flags are raised while the request is awaited, [isLoading] is
    lowered when the reply starts, and a recorded [error] with both flags
    lowered is a failed exchange. *)
Module SessionState.
Inductive t := idle | awaitingResponse | streamingAssistantReply | error.
End SessionState.

Definition sessionState (s : State) : SessionState.t :=
  if isLoading s then SessionState.awaitingResponse
  else if isStreaming s then SessionState.streamingAssistantReply
  else match error s with
       | Some _ => SessionState.error
       | None => SessionState.idle
       end.

(* ================================================================= *)
(** ** An instance of the platform *)

Module Host.

Local Open Scope N_scope.

(** *** [JSON.parse] (ECMA-404 grammar) *)

Definition isJsonWhiteSpace (c : N) : bool :=
  (c =? 9) || (c =? 10) || (c =? 13) || (c =? 32).

Fixpoint skipWhiteSpace (s : jsstring) : jsstring :=
  match s with
  | c :: s' => if isJsonWhiteSpace c then skipWhiteSpace s' else s
  | [] => []
  end.

Definition isDigit (c : N) : bool := (48 <=? c) && (c <=? 57).

Definition hexDigit (c : N) : option N :=
  if isDigit c then Some (c - 48)
  else if (65 <=? c) && (c <=? 70) then Some (c - 55)
  else if (97 <=? c) && (c <=? 102) then Some (c - 87)
  else None.

Definition hex4 (a b c d : N) : option N :=
  match hexDigit a, hexDigit b, hexDigit c, hexDigit d with
  | Some x, Some y, Some z, Some w => Some (((x * 16 + y) * 16 + z) * 16 + w)
  | _, _, _, _ => None
  end.

(** The code unit of a one-character escape. *)
Definition escape (c : N) : option N :=
  if c =? 34 then Some 34          (* quotation mark *)
  else if c =? 92 then Some 92     (* reverse solidus *)
  else if c =? 47 then Some 47     (* solidus *)
  else if c =? 98 then Some 8      (* b: backspace *)
  else if c =? 102 then Some 12    (* f: form feed *)
  else if c =? 110 then Some 10    (* n: line feed *)
  else if c =? 114 then Some 13    (* r: carriage return *)
  else if c =? 116 then Some 9     (* t: tab *)
  else None.

Definition push (c : N) (r : option (jsstring * jsstring))
  : option (jsstring * jsstring) :=
  match r with
  | Some (s, rest) => Some (c :: s, rest)
  | None => None
  end.

(** A string literal after its opening quote: its value and the text
    after the closing quote. *)
Fixpoint stringBody (s : jsstring) : option (jsstring * jsstring) :=
  match s with
  | [] => None
  | c :: s1 =>
      if c =? 34 then Some ([], s1)
      else if c =? 92 then
        match s1 with
        | [] => None
        | e :: s2 =>
            if e =? 117 then
              match s2 with
              | h1 :: h2 :: h3 :: h4 :: s3 =>
                  match hex4 h1 h2 h3 h4 with
                  | Some u => push u (stringBody s3)
                  | None => None
                  end
              | _ => None
              end
            else
              match escape e with
              | Some u => push u (stringBody s2)
              | None => None
              end
        end
      else if c <? 32 then None
      else push c (stringBody s1)
  end.

(** A run of decimal digits: its value, its length and the rest. *)
Fixpoint digitRun (acc : N) (count : nat) (s : jsstring) : N * nat * jsstring :=
  match s with
  | c :: s' => if isDigit c then digitRun (acc * 10 + (c - 48)) (S count) s'
               else (acc, count, s)
  | [] => (acc, count, [])
  end.

Definition exponentPart (s : jsstring) : option (Z * jsstring) :=
  match s with
  | c :: s1 =>
      if (c =? 101) || (c =? 69) then
        let '(sign, s2) :=
          match s1 with
          | d :: s2' => if d =? 45 then (true, s2')
                        else if d =? 43 then (false, s2') else (false, s1)
          | [] => (false, s1)
          end in
        match digitRun 0 0 s2 with
        | (_, O, _) => None
        | (e, _, rest) => Some (if sign then (- Z.of_N e)%Z else Z.of_N e, rest)
        end
      else Some (0%Z, s)
  | [] => Some (0%Z, s)
  end.

Definition fractionPart (int : N) (s : jsstring) : option (N * Z * jsstring) :=
  match s with
  | c :: s1 =>
      if c =? 46 then
        match digitRun int 0 s1 with
        | (_, O, _) => None
        | (m, k, rest) => Some (m, (- Z.of_nat k)%Z, rest)
        end
      else Some (int, 0%Z, s)
  | [] => Some (int, 0%Z, s)
  end.

(** A number literal: an optional minus sign; a zero, or a non-zero
    digit followed by digits; an optional fraction (a point and at
    least one digit); an optional exponent (e or E, an optional sign,
    at least one digit). *)
Definition numberLiteral (s : jsstring) : option (number * jsstring) :=
  let '(neg, s1) :=
    match s with
    | c :: s' => if c =? 45 then (true, s') else (false, s)
    | [] => (false, s)
    end in
  let int :=
    match s1 with
    | c :: s2 =>
        if c =? 48 then Some (0, s2)
        else if isDigit c then
          let '(v, _, rest) := digitRun 0 0 s1 in Some (v, rest)
        else None
    | [] => None
    end in
  match int with
  | None => None
  | Some (i, s2) =>
      match fractionPart i s2 with
      | None => None
      | Some (m, shift, s3) =>
          match exponentPart s3 with
          | None => None
          | Some (e, s4) =>
              Some ({| negative := neg; mantissa := m; exponent := (e + shift)%Z |}, s4)
          end
      end
  end.

(** A value, the elements of an array after its opening bracket and the
    members of an object after its opening brace.  Every call consumes
    at least one code unit before it recurses, so a fuel of twice the
    length of the text (and two) is never exhausted. *)
Fixpoint parseValue (fuel : nat) (s : jsstring) : option (json * jsstring) :=
  match fuel with
  | O => None
  | S fuel' =>
      match skipWhiteSpace s with
      | [] => None
      | c :: s1 =>
          if c =? 123 then
            match skipWhiteSpace s1 with
            | d :: s2 =>
                if d =? 125 then Some (JObj [], s2)
                else
                  match parseMembers fuel' s1 with
                  | Some (ms, rest) => Some (JObj ms, rest)
                  | None => None
                  end
            | [] => None
            end
          else if c =? 91 then
            match skipWhiteSpace s1 with
            | d :: s2 =>
                if d =? 93 then Some (JArr [], s2)
                else
                  match parseElements fuel' s1 with
                  | Some (vs, rest) => Some (JArr vs, rest)
                  | None => None
                  end
            | [] => None
            end
          else if c =? 34 then
            match stringBody s1 with
            | Some (v, rest) => Some (JStr v, rest)
            | None => None
            end
          else if startsWith (lit "true") (c :: s1) then
            Some (JBool true, skipn 4 (c :: s1))
          else if startsWith (lit "false") (c :: s1) then
            Some (JBool false, skipn 5 (c :: s1))
          else if startsWith (lit "null") (c :: s1) then
            Some (JNull, skipn 4 (c :: s1))
          else
            match numberLiteral (c :: s1) with
            | Some (n, rest) => Some (JNum n, rest)
            | None => None
            end
      end
  end

with parseElements (fuel : nat) (s : jsstring) : option (list json * jsstring) :=
  match fuel with
  | O => None
  | S fuel' =>
      match parseValue fuel' s with
      | None => None
      | Some (v, rest) =>
          match skipWhiteSpace rest with
          | c :: rest' =>
              if c =? 93 then Some ([v], rest')
              else if c =? 44 then
                match parseElements fuel' rest' with
                | Some (vs, rest'') => Some (v :: vs, rest'')
                | None => None
                end
              else None
          | [] => None
          end
      end
  end

with parseMembers (fuel : nat) (s : jsstring)
  : option (list (jsstring * json) * jsstring) :=
  match fuel with
  | O => None
  | S fuel' =>
      match skipWhiteSpace s with
      | q :: s1 =>
          if q =? 34 then
            match stringBody s1 with
            | None => None
            | Some (key, s2) =>
                match skipWhiteSpace s2 with
                | colon :: s3 =>
                    if colon =? 58 then
                      match parseValue fuel' s3 with
                      | None => None
                      | Some (v, rest) =>
                          match skipWhiteSpace rest with
                          | c :: rest' =>
                              if c =? 125 then Some ([(key, v)], rest')
                              else if c =? 44 then
                                match parseMembers fuel' rest' with
                                | Some (ms, rest'') => Some ((key, v) :: ms, rest'')
                                | None => None
                                end
                              else None
                          | [] => None
                          end
                      end
                    else None
                | [] => None
                end
            end
          else None
      | [] => None
      end
  end.

(** [JSON.parse(text)]: one value, with white space around it and
    nothing else. *)
Definition JSON_parse (text : jsstring) : option json :=
  match parseValue (2 * length text + 2) text with
  | Some (v, rest) =>
      match skipWhiteSpace rest with
      | [] => Some v
      | _ :: _ => None
      end
  | None => None
  end.

(** *** [TextDecoder] (UTF-8, not fatal, byte order mark stripped) *)

Record Utf8 := {
  codePoint : N;
  bytesSeen : N;
  bytesNeeded : N;
  lowerBoundary : N;
  upperBoundary : N;
  bomSeen : bool
}.

Definition new_TextDecoder : Utf8 :=
  {| codePoint := 0; bytesSeen := 0; bytesNeeded := 0;
     lowerBoundary := 128; upperBoundary := 191; bomSeen := false |}.

Definition reset (d : Utf8) : Utf8 :=
  {| codePoint := 0; bytesSeen := 0; bytesNeeded := 0;
     lowerBoundary := 128; upperBoundary := 191; bomSeen := bomSeen d |}.

Definition expect (d : Utf8) (needed cp lower upper : N) : Utf8 :=
  {| codePoint := cp; bytesSeen := 0; bytesNeeded := needed;
     lowerBoundary := lower; upperBoundary := upper; bomSeen := bomSeen d |}.

(** A byte read while no sequence is open. *)
Definition leadByte (d : Utf8) (b : N) : list N * Utf8 :=
  if b <=? 127 then ([b], reset d)
  else if (194 <=? b) && (b <=? 223) then ([], expect d 1 (b - 192) 128 191)
  else if (224 <=? b) && (b <=? 239) then
    ([], expect d 2 (b - 224) (if b =? 224 then 160 else 128)
                              (if b =? 237 then 159 else 191))
  else if (240 <=? b) && (b <=? 244) then
    ([], expect d 3 (b - 240) (if b =? 240 then 144 else 128)
                              (if b =? 244 then 143 else 191))
  else ([65533], reset d).

(** One byte through the decoder: the code points it completes. *)
Definition decodeByte (d : Utf8) (b : N) : list N * Utf8 :=
  if bytesNeeded d =? 0 then leadByte d b
  else if (b <? lowerBoundary d) || (upperBoundary d <? b) then
    let (out, d') := leadByte (reset d) b in (65533 :: out, d')
  else
    let cp := codePoint d * 64 + (b - 128) in
    if bytesSeen d + 1 =? bytesNeeded d then ([cp], reset d)
    else ([], {| codePoint := cp; bytesSeen := bytesSeen d + 1;
                 bytesNeeded := bytesNeeded d;
                 lowerBoundary := 128; upperBoundary := 191;
                 bomSeen := bomSeen d |}).

(** A code point as UTF-16 code units; the first code point of the
    stream is dropped when it is the byte order mark. *)
Definition codeUnits (cp : N) : jsstring :=
  if cp <? 65536 then [cp]
  else [55296 + (cp - 65536) / 1024; 56320 + (cp - 65536) mod 1024].

Fixpoint output (d : Utf8) (cps : list N) : jsstring * Utf8 :=
  match cps with
  | [] => ([], d)
  | cp :: rest =>
      let d1 := {| codePoint := codePoint d; bytesSeen := bytesSeen d;
                   bytesNeeded := bytesNeeded d;
                   lowerBoundary := lowerBoundary d;
                   upperBoundary := upperBoundary d; bomSeen := true |} in
      let (s, d2) := output d1 rest in
      if negb (bomSeen d) && (cp =? 65279) then (s, d2)
      else (codeUnits cp ++ s, d2)
  end.

(** [decoder.decode(value, { stream: true })] *)
Fixpoint decode (d : Utf8) (value : list byte) : jsstring * Utf8 :=
  match value with
  | [] => ([], d)
  | b :: rest =>
      let (cps, d1) := decodeByte d (Byte.to_N b) in
      let (s, d2) := output d1 cps in
      let (s', d3) := decode d2 rest in
      (s ++ s', d3)
  end.

(** *** Numbers, as far as the examples need them: a literal is falsy
    when its mantissa is zero, and an integer literal without exponent
    prints as its digits. *)
Definition Number_ToBoolean (n : number) : bool := negb (mantissa n =? 0).

Definition Number_ToString (n : number) : jsstring :=
  (if negative n && negb (mantissa n =? 0) then lit "-" else [])
  ++ integer_toString (mantissa n).

Definition native_message (k : native) : jsstring :=
  match k with
  | SyntaxError => lit "Unexpected token in JSON"
  | TypeError => lit "Cannot read properties of null"
  end.

(** The raw bytes of an ASCII text. *)
Definition bytes (s : string) : list byte := list_byte_of_string s.

Definition platform : Platform :=
  mkPlatform Number_ToBoolean Number_ToString JSON_parse native_message
             new_TextDecoder decode.

End Host.

(* ================================================================= *)
(** ** Vocabulary of the properties *)

(** [l1] is a suffix of [l2]. *)
Definition Suffix {A : Type} (l1 l2 : list A) : Prop :=
  exists front, l2 = front ++ l1.

(** The successive values of a buffer that starts as [buffer] and has
    the [pieces] appended one by one. *)
Fixpoint cumulative (buffer : jsstring) (pieces : list jsstring) : list jsstring :=
  match pieces with
  | [] => []
  | piece :: rest => (buffer ++ piece) :: cumulative (buffer ++ piece) rest
  end.

Definition isConsoleWarn (e : Effect) : bool :=
  match e with
  | ConsoleWarn _ => true
  | _ => false
  end.

(** Two machines that differ at most in the warnings they logged. *)
Definition sameButWarnings (m1 m2 : Machine) : Prop :=
  state m1 = state m2 /\
  assistantContent m1 = assistantContent m2 /\
  tick m1 = tick m2 /\
  filter (fun e => negb (isConsoleWarn e)) (log m1)
  = filter (fun e => negb (isConsoleWarn e)) (log m2).

(** How many messages of a transcript have a given role. *)
Definition role_eqb (a b : Role) : bool :=
  match a, b with
  | user, user | assistant, assistant => true
  | _, _ => false
  end.

Definition countRole (r : Role) (messages : list Message.t) : nat :=
  length (filter (fun msg => role_eqb (Message.role msg) r) messages).

Section Stream.

Variable platform : Platform.

(** What [JSON.parse] makes of a line after its [data: ] prefix; [None]
    for a line without the prefix and for one that does not parse. *)
Definition payload (line : jsstring) : option json :=
  if startsWith (lit "data: ") line
  then JSON_parse platform (slice 6 line)
  else None.

(** A line carrying [{"chunk": piece}] with a non-empty [piece], no
    truthy [done] and no truthy [error]. *)
Definition fragment_line (line piece : jsstring) : Prop :=
  exists members,
    payload line = Some (JObj members) /\
    truthy platform (own members (lit "error")) = false /\
    own members (lit "chunk") = Some (JStr piece) /\
    piece <> [] /\
    truthy platform (own members (lit "done")) = false.

(** A line carrying [{"done": true}] and no truthy [error]. *)
Definition done_line (line : jsstring) : Prop :=
  exists members,
    payload line = Some (JObj members) /\
    truthy platform (own members (lit "error")) = false /\
    own members (lit "done") = Some (JBool true).

(** A line carrying [{"error": message}] with a non-empty [message]. *)
Definition error_line (line message : jsstring) : Prop :=
  exists members,
    payload line = Some (JObj members) /\
    own members (lit "error") = Some (JStr message) /\
    message <> [].

(** A [data: ] line whose remainder [JSON.parse] rejects. *)
Definition malformed_line (line : jsstring) : Prop :=
  startsWith (lit "data: ") line = true /\
  JSON_parse platform (slice 6 line) = None.

(** A line without the [data: ] prefix. *)
Definition unprefixed_line (line : jsstring) : Prop :=
  startsWith (lit "data: ") line = false.

(** [lines] are fragment lines carrying [pieces] in this order, with
    unprefixed lines (the empty lines between events) among them. *)
Inductive Fragments : list jsstring -> list jsstring -> Prop :=
| Fragments_nil : Fragments [] []
| Fragments_piece line piece lines pieces :
    fragment_line line piece -> Fragments lines pieces ->
    Fragments (line :: lines) (piece :: pieces)
| Fragments_skip line lines pieces :
    unprefixed_line line -> Fragments lines pieces ->
    Fragments (line :: lines) pieces.

(** The lines the read loop sees, in order: each decoded chunk is split
    on its own. *)
Fixpoint linesOf (decoder : TextDecoder platform) (reads : list (list byte))
  : list jsstring :=
  match reads with
  | [] => []
  | value :: rest =>
      let (chunk, decoder') := decode platform decoder value in
      split 10 chunk ++ linesOf decoder' rest
  end.

(** What [dispatch] does with a line, as a value. *)
Inductive Action :=
| Ignore
| Warn (e : exn)
| Append (piece : jsstring)
| Done.

Definition classify (line : jsstring) : Action :=
  if startsWith (lit "data: ") line then
    match JSON_parse platform (slice 6 line) with
    | None => Warn (Native SyntaxError)
    | Some data =>
        match Get data (lit "error"), Get data (lit "chunk"), Get data (lit "done") with
        | inr err, inr chunk, inr done =>
            if truthy platform err then
              match err with
              | None => Warn (Error (lit "undefined"))
              | Some j =>
                  match ToString (Number_ToString platform) j with
                  | Some message => Warn (Error message)
                  | None => Warn (Native TypeError)
                  end
              end
            else if truthy platform chunk && negb (truthy platform done) then
              match chunk with
              | None => Append (lit "undefined")
              | Some j =>
                  match ToString (Number_ToString platform) j with
                  | Some piece => Append piece
                  | None => Warn (Native TypeError)
                  end
              end
            else if truthy platform done then Done
            else Ignore
        | inl e, _, _ => Warn e
        | _, inl e, _ => Warn e
        | _, _, inl e => Warn e
        end
    end
  else Ignore.

Definition warned (e : exn) (m : Machine) : Machine :=
  {| state := state m; assistantContent := assistantContent m;
     tick := tick m; log := log m ++ [ConsoleWarn e] |}.

Definition appended (assistantMessageId piece : jsstring) (m : Machine) : Machine :=
  let content := assistantContent m ++ piece in
  let next := map (withContent assistantMessageId content) (messages (state m)) in
  {| state := {| messages := next; inputMessage := inputMessage (state m);
                 isLoading := isLoading (state m);
                 isStreaming := isStreaming (state m);
                 error := error (state m) |};
     assistantContent := content;
     tick := tick m;
     log := log m ++ [SetMessages next] |}.

Definition finished (m : Machine) : Machine :=
  {| state := {| messages := messages (state m);
                 inputMessage := inputMessage (state m);
                 isLoading := isLoading (state m);
                 isStreaming := false;
                 error := error (state m) |};
     assistantContent := assistantContent m;
     tick := tick m;
     log := log m |}.

Definition act (assistantMessageId : jsstring) (a : Action) (m : Machine)
  : Control * Machine :=
  match a with
  | Ignore => (Continue, m)
  | Warn e => (Continue, warned e m)
  | Append piece => (Continue, appended assistantMessageId piece m)
  | Done => (Return, finished m)
  end.

(** The actions of successive lines, up to the first [Done]. *)
Fixpoint actAll (assistantMessageId : jsstring) (lines : list jsstring)
    (m : Machine) : Control * Machine :=
  match lines with
  | [] => (Continue, m)
  | line :: rest =>
      match act assistantMessageId (classify line) m with
      | (Return, m') => (Return, m')
      | (Continue, m') => actAll assistantMessageId rest m'
      end
  end.

(** The read loop over lines already decoded and split: the actions of
    the lines, then, unless one of them returned, the end of the
    stream. *)
Definition consume (assistantMessageId : jsstring) (lines : list jsstring)
    (last : StreamEnd) (m : Machine) : Completion unit * Machine :=
  match actAll assistantMessageId lines m with
  | (Return, m') => (Normal tt, m')
  | (Continue, m') => endOfReads last m'
  end.

(** The machine after the given pieces were appended one by one. *)
Fixpoint streamed (assistantMessageId : jsstring) (pieces : list jsstring)
    (m : Machine) : Machine :=
  match pieces with
  | [] => m
  | piece :: rest =>
      streamed assistantMessageId rest (appended assistantMessageId piece m)
  end.

End Stream.

(** A submit that passes the guard of the handler. *)
Definition accepted (s : State) : Prop :=
  trim (inputMessage s) <> [] /\ isLoading s = false /\ isStreaming s = false.

Section Exchange.

Variable world : World.

(** The id drawn by the [generateId] call that starts at oracle
    position [i]. *)
Definition idAt (i : nat) : jsstring :=
  integer_toString (Date_now world i)
  ++ substr 2 9 (Math_random_toString36 world (S i)).

(** The user Message, the request and the assistant placeholder of an
    accepted submit from state [s]. *)
Definition userMessageOf (s : State) : Message.t :=
  Message.mk (idAt 0) (trim (inputMessage s)) user (Date_now world 2).

Definition requestUrl : jsstring := apiUrl world ++ lit "/stream".

Definition requestOf (s : State) : ChatRequest.t :=
  ChatRequest.mk (trim (inputMessage s)) (getConversationHistory (messages s)).

Definition placeholder : Message.t :=
  Message.mk (idAt 3) [] assistant (Date_now world 5).

(** The machine when the request has just been issued. *)
Definition requested (s : State) : Machine :=
  {| state := {| messages := messages s ++ [userMessageOf s];
                 inputMessage := [];
                 isLoading := true;
                 isStreaming := true;
                 error := None |};
     assistantContent := [];
     tick := 3;
     log := [SetMessages (messages s ++ [userMessageOf s]);
             Fetch requestUrl (requestOf s)] |}.

(** The machine when the placeholder has been appended and the read
    loop is about to start. *)
Definition streaming (s : State) : Machine :=
  {| state := {| messages := messages s ++ [userMessageOf s; placeholder];
                 inputMessage := [];
                 isLoading := false;
                 isStreaming := true;
                 error := None |};
     assistantContent := [];
     tick := 6;
     log := [SetMessages (messages s ++ [userMessageOf s]);
             Fetch requestUrl (requestOf s);
             SetMessages (messages s ++ [userMessageOf s; placeholder])] |}.

(** The machine after the [catch] block ran on [m] with message
    [reason]. *)
Definition failed (reason : jsstring) (m : Machine) : Machine :=
  {| state := {| messages := messages (state m);
                 inputMessage := inputMessage (state m);
                 isLoading := false;
                 isStreaming := false;
                 error := Some reason |};
     assistantContent := assistantContent m;
     tick := tick m;
     log := log m |}.

End Exchange.

(* ================================================================= *)
(** ** Inputs of the examples *)

Module Example.

(** Wire text, written with an apostrophe where the wire has a quotation
    mark: as a string and as raw bytes. *)
Definition wire (s : string) : jsstring :=
  map (fun c => if N.eqb c 39 then 34%N else c) (lit s).

Definition raw (s : string) : list byte :=
  map (fun b => if Byte.eqb b x27 then x22 else b) (list_byte_of_string s).

Definition LF : list byte := [x0a].

(** A world whose network gives [answer] to every request. *)
Definition world (answer : exn + Response) : World :=
  {| apiUrl := lit "http://localhost:8083";
     Date_now := fun i => (1700000000000 + N.of_nat i)%N;
     Math_random_toString36 := fun _ => lit "0.4fzyo82mvyr";
     network := fun _ _ => answer |}.

(** A 200 response streaming the given reads. *)
Definition reply (reads : list (list byte)) (last : StreamEnd) : exn + Response :=
  inr {| status := 200; statusText := lit "OK";
         body := Some {| chunks := reads; ending := last |} |}.

Definition refusal : exn + Response :=
  inr {| status := 500; statusText := lit "Internal Server Error"; body := None |}.

(** The freshly mounted component with a question typed in. *)
Definition asking (text : string) : State :=
  {| messages := [greeting 0];
     inputMessage := lit text;
     isLoading := false;
     isStreaming := false;
     error := None |}.

(** The component after a refused exchange, with a new question typed
    in. *)
Definition afterFailure (text : string) : State :=
  {| messages := [greeting 0;
                  Message.mk (lit "17000000000004fzyo82mv") (lit "hi") user 1700000000002];
     inputMessage := lit text;
     isLoading := false;
     isStreaming := false;
     error := Some (lit "HTTP 500: Internal Server Error") |}.

Definition run (answer : exn + Response) (s : State) : Machine :=
  submit Host.platform (world answer) s.

(** The streams of the specification's examples. *)
Definition hello : list (list byte) :=
  [raw "data: {'chunk':'Hel'}" ++ LF;
   raw "data: {'chunk':'lo'}" ++ LF;
   raw "data: {'done':true}" ++ LF].

Definition partial : list (list byte) :=
  [raw "data: {'chunk':'partial'}" ++ LF].

Definition boom : list (list byte) :=
  [raw "data: {'error':'boom'}" ++ LF].

Definition boomThenMore : list (list byte) :=
  [raw "data: {'error':'boom'}" ++ LF;
   raw "data: {'chunk':'late'}" ++ LF].

Definition interleaved : list (list byte) :=
  [raw "data: {'chunk':'Hel'}" ++ LF
   ++ raw "data: {not valid json}" ++ LF
   ++ raw "data: {'chunk':'lo'}" ++ LF].

Definition clean : list (list byte) :=
  [raw "data: {'chunk':'Hel'}" ++ LF
   ++ raw "data: {'chunk':'lo'}" ++ LF].

(** One line cut inside its payload, and one cut between its payload and
    the carriage return that ends it. *)
Definition cutInside : list (list byte) :=
  [raw "data: {'chunk':'par"; raw "tial'}" ++ LF].

Definition cutBeforeCR : list (list byte) :=
  [raw "data: {'chunk':'partial'}"; [x0d] ++ LF].

(** A line ended by CR LF, cut inside its payload. *)
Definition cutInsideCR : list (list byte) :=
  [raw "data: {'chunk':'par"; raw "tial'}" ++ [x0d] ++ LF].

(** A transcript of ten messages. *)
Definition ten : list Message.t :=
  map (fun i => Message.mk (integer_toString i) (integer_toString (i * i)) user i)
      [1; 2; 3; 4; 5; 6; 7; 8; 9; 10]%N.

Ltac evaluate := vm_compute; reflexivity.

(** Proves [fragment_line], [done_line] or [error_line] of a concrete
    line by evaluating its payload. *)
Ltac line :=
  eexists; repeat split; try evaluate; try discriminate.

End Example.

(* ================================================================= *)
(** ** The other handlers and the view *)

(** What [handleKeyPress] reads of a keyboard event. *)
Record KeyboardEvent := { key : jsstring; shiftKey : bool }.

(** What the JSX of the component shows of a state: one bubble per
    message, the [disabled] attributes of the textarea and of the send
    button, whether the typing indicator is rendered, and the text of the
    error banner ([error && ...] renders nothing for [null] and for the
    empty string). *)
Record View := {
  bubbles : list (jsstring * Role * jsstring);
  textareaDisabled : bool;
  sendDisabled : bool;
  typingIndicator : bool;
  errorBanner : option jsstring
}.

Definition render (s : State) : View :=
  {| bubbles := map (fun message => (Message.id message, Message.role message,
                                     Message.content message))
                    (messages s);
     textareaDisabled := isLoading s || isStreaming s;
     sendDisabled := negb (JS.ToBoolean (trim (inputMessage s)))
                     || isLoading s || isStreaming s;
     typingIndicator := isLoading s && negb (isStreaming s);
     errorBanner := match error s with
                    | Some text => if JS.ToBoolean text then Some text else None
                    | None => None
                    end |}.

Definition isFetch (e : Effect) : bool :=
  match e with
  | Fetch _ _ => true
  | _ => false
  end.

(** What of a message no handler ever rewrites. *)
Definition frame (message : Message.t) : jsstring * Role * N :=
  (Message.id message, Message.role message, Message.timestamp message).

Section Component.

Variable platform : Platform.
Variable world : World.

(** [handleInputChange]: the state update; the height of the textarea,
    which [adjustTextareaHeight] then writes to the DOM node, is not part
    of the state. *)
Definition handleInputChange (value : jsstring) : M unit :=
  setInputMessage value.

(** [handleKeyPress]; the result tells whether [e.preventDefault()] was
    called.  The promise of [handleSendMessage] is not awaited. *)
Definition handleKeyPress (closure : State) (e : KeyboardEvent) : M bool :=
  if JS.eqb (key e) (lit "Enter") && negb (shiftKey e)
  then handleSendMessage platform world closure ;; ret true
  else ret false.

(** The state the component renders after [value] was typed in state
    [s]. *)
Definition typed (value : jsstring) (s : State) : State :=
  state (snd (handleInputChange value (start s))).

End Component.

(** Further inputs of the examples. *)
Module Scenario.

Definition failure : exn + Response := inl (Error (lit "Failed to fetch")).

Definition noBody : exn + Response :=
  inr {| status := 204; statusText := lit "No Content"; body := None |}.

Definition broken : exn + Response :=
  Example.reply Example.partial (ReadError (Error (lit "network error"))).

Definition tailWithDone : jsstring :=
  Example.wire "data: {'chunk':'tail','done':true}".

Definition enter : KeyboardEvent := {| key := lit "Enter"; shiftKey := false |}.

Definition shiftEnter : KeyboardEvent := {| key := lit "Enter"; shiftKey := true |}.

End Scenario.

(* ================================================================= *)
(** ** The history as the specification words it *)

Module Spec.

(** [recentHistory(limit)]: the last [limit] messages of the transcript,
    none of them when [limit] is 0 or less, oldest first, each projected
    to its role and content. *)
Definition recentHistory (limit : Z) (transcript : list Message.t)
  : list ConversationHistory.t :=
  map project (rev (firstn (Z.to_nat limit) (rev transcript))).

End Spec.

(* ================================================================= *)
(** ** What the host's parser reads over *)

(** A text with neither a quotation mark nor a reverse solidus. *)
Definition bare (s : jsstring) : Prop :=
  Forall (fun c => c <> 34%N /\ c <> 92%N) s.

(** Proves a literal [bare]. *)
Ltac bare_lit := repeat constructor; discriminate.

(** A text that is bare, or whose first quotation mark comes after bare
    text and is followed by a second one. *)
Definition Good (c : jsstring) : Prop :=
  bare c \/ exists P Q, c = P ++ 34%N :: Q /\ bare P /\ In 34%N Q.

(** [rest] is what is left of [s] after a text of that kind. *)
Definition Consumes (s rest : jsstring) : Prop :=
  exists c, s = c ++ rest /\ Good c.

(** Only JSON white space. *)
Definition blank (s : jsstring) : Prop :=
  Forall (fun c => Host.isJsonWhiteSpace c = true) s.

(** The text of a fragment line up to its closing brace: the prefix, an
    object with the one member [chunk], white space [w] after the colon,
    and the string literal whose inside is [body]. *)
Definition chunkCore (w body : jsstring) : jsstring :=
  Example.wire "data: {'chunk':" ++ w ++ 34%N :: body ++ [34; 125]%N.

(* ================================================================= *)
(** ** Properties *)

Section Properties.

Variable platform : Platform.
Variable world : World.

(** *** The loop body *)

Lemma dispatch_act (assistantMessageId line : jsstring) (m : Machine) :
  dispatch platform assistantMessageId line m
  = (Normal (fst (act assistantMessageId (classify platform line) m)),
     snd (act assistantMessageId (classify platform line) m)).
Proof.
  unfold dispatch, classify.
  destruct (startsWith (lit "data: ") line); [|reflexivity].
  unfold try_catch, bind, parse.
  destruct (JSON_parse platform (slice 6 line)) as [data|]; [|reflexivity].
  destruct data as [|b|n|str|items|members]; try reflexivity;
    cbn [Get lift ret throw].
  all: try (destruct (truthy platform None) eqn:E; [discriminate E|]; reflexivity).
  destruct (truthy platform (own members (lit "error"))) eqn:Eerr.
  - unfold toString.
    destruct (own members (lit "error")) as [j|]; [|discriminate Eerr].
    destruct (ToString (Number_ToString platform) j); reflexivity.
  - destruct (truthy platform (own members (lit "chunk"))) eqn:Echunk;
      destruct (truthy platform (own members (lit "done"))) eqn:Edone;
      cbn [andb negb]; try reflexivity.
    unfold toString.
    destruct (own members (lit "chunk")) as [j|]; [|discriminate Echunk].
    destruct (ToString (Number_ToString platform) j); reflexivity.
Qed.

Lemma classify_fragment (line piece : jsstring) :
  fragment_line platform line piece -> classify platform line = Append piece.
Proof.
  intros (members & Hp & Herr & Hchunk & Hne & Hdone).
  unfold payload in Hp. unfold classify.
  destruct (startsWith (lit "data: ") line); [|discriminate Hp].
  rewrite Hp. cbn [Get]. rewrite Herr, Hdone, Hchunk.
  assert (Ht : truthy platform (Some (JStr piece)) = true).
  { cbn. destruct piece; [contradiction|reflexivity]. }
  rewrite Ht. reflexivity.
Qed.

Lemma classify_done (line : jsstring) :
  done_line platform line -> classify platform line = Done.
Proof.
  intros (members & Hp & Herr & Hdone).
  unfold payload in Hp. unfold classify.
  destruct (startsWith (lit "data: ") line); [|discriminate Hp].
  rewrite Hp. cbn [Get]. rewrite Herr, Hdone.
  cbn [truthy ToBoolean negb]. rewrite andb_false_r. reflexivity.
Qed.

Lemma classify_error (line message : jsstring) :
  error_line platform line message ->
  classify platform line = Warn (Error message).
Proof.
  intros (members & Hp & Herr & Hne).
  unfold payload in Hp. unfold classify.
  destruct (startsWith (lit "data: ") line); [|discriminate Hp].
  rewrite Hp. cbn [Get]. rewrite Herr.
  assert (Ht : truthy platform (Some (JStr message)) = true).
  { cbn. destruct message; [contradiction|reflexivity]. }
  rewrite Ht. reflexivity.
Qed.

Lemma classify_malformed (line : jsstring) :
  malformed_line platform line ->
  classify platform line = Warn (Native SyntaxError).
Proof.
  intros [Hs Hp]. unfold classify. rewrite Hs, Hp. reflexivity.
Qed.

Lemma classify_unprefixed (line : jsstring) :
  unprefixed_line line -> classify platform line = Ignore.
Proof.
  intros Hs. unfold classify. rewrite Hs. reflexivity.
Qed.

Lemma classify_no_payload (line : jsstring) :
  payload platform line = None ->
  classify platform line = Ignore
  \/ classify platform line = Warn (Native SyntaxError).
Proof.
  unfold payload, classify.
  destruct (startsWith (lit "data: ") line); [|now left].
  intros ->. now right.
Qed.

(** *** The loops *)

Lemma forLines_actAll (assistantMessageId : jsstring) (lines : list jsstring)
    (m : Machine) :
  forLines platform assistantMessageId lines m
  = (Normal (fst (actAll platform assistantMessageId lines m)),
     snd (actAll platform assistantMessageId lines m)).
Proof.
  revert m. induction lines as [|line rest IH]; intros m; [reflexivity|].
  cbn [forLines actAll]. unfold bind. rewrite dispatch_act.
  destruct (act assistantMessageId (classify platform line) m) as [[|] m'];
    cbn [fst snd]; [apply IH | reflexivity].
Qed.

Lemma actAll_app (assistantMessageId : jsstring) (l1 l2 : list jsstring)
    (m : Machine) :
  actAll platform assistantMessageId (l1 ++ l2) m
  = match actAll platform assistantMessageId l1 m with
    | (Return, m') => (Return, m')
    | (Continue, m') => actAll platform assistantMessageId l2 m'
    end.
Proof.
  revert m. induction l1 as [|line rest IH]; intros m; [reflexivity|].
  cbn [app actAll].
  destruct (act assistantMessageId (classify platform line) m) as [[|] m'];
    [apply IH | reflexivity].
Qed.

Lemma readLoop_lines (assistantMessageId : jsstring)
    (decoder : TextDecoder platform) (reads : list (list byte))
    (last : StreamEnd) (m : Machine) :
  readLoop platform assistantMessageId decoder reads last m
  = match actAll platform assistantMessageId (linesOf platform decoder reads) m with
    | (Return, m') => (Normal tt, m')
    | (Continue, m') => endOfReads last m'
    end.
Proof.
  revert decoder m. induction reads as [|value rest IH]; intros decoder m.
  - reflexivity.
  - cbn [readLoop linesOf].
    destruct (decode platform decoder value) as [chunk decoder'].
    unfold bind. rewrite forLines_actAll, actAll_app.
    destruct (actAll platform assistantMessageId (split 10 chunk) m) as [[|] m'];
      cbn [fst snd]; [apply IH | reflexivity].
Qed.

(** *** The handler *)

Lemma ToBoolean_nonempty (t : jsstring) : t <> [] -> JS.ToBoolean t = true.
Proof. destruct t; [contradiction | reflexivity]. Qed.

Lemma guard_rejects (closure : State) (m : Machine) :
  trim (inputMessage closure) = [] \/ isLoading closure = true
  \/ isStreaming closure = true ->
  handleSendMessage platform world closure m = (Normal tt, m).
Proof.
  intros H. unfold handleSendMessage.
  destruct H as [H | [H | H]]; rewrite H; cbn [JS.ToBoolean JS.eqb negb orb];
    rewrite ?orb_true_r; reflexivity.
Qed.
Lemma submit_accepted (s : State) :
  accepted s ->
  submit platform world s
  = match network world (requestUrl world) (requestOf s) with
    | inl e => failed (caught_message platform e) (requested world s)
    | inr response =>
        if ok response then
          match body response with
          | None =>
              failed (lit "No se pudo leer la respuesta del servidor")
                     (streaming world s)
          | Some reader =>
              match actAll platform (idAt world 3)
                      (linesOf platform (new_TextDecoder platform) (chunks reader))
                      (streaming world s) with
              | (Return, m') => m'
              | (Continue, m') =>
                  match ending reader with
                  | EndOfData => m'
                  | ReadError e => failed (caught_message platform e) m'
                  end
              end
          end
        else
          failed (lit "HTTP " ++ integer_toString (status response)
                  ++ lit ": " ++ statusText response)
                 (requested world s)
    end.
Proof.
  intros (Hin & Hl & Hs).
  unfold submit, handleSendMessage, requestUrl, requestOf.
  rewrite (ToBoolean_nonempty Hin), Hl, Hs. cbn [negb orb].
  cbv beta iota delta [try_catch bind fetch generateId Date_now_
    Math_random_toString36_ setMessages setInputMessage setIsLoading
    setIsStreaming setError update emit draw ret start state assistantContent
    tick log messages inputMessage isLoading isStreaming error fst snd
    Message.content].
  destruct (network world _ _) as [e|response]; [reflexivity|].
  cbv beta iota delta [lift ret].
  destruct (ok response); cbv beta iota delta [negb throw]; [|reflexivity].
  destruct (body response) as [reader|];
    [|rewrite <- !app_assoc; reflexivity].
  cbv beta iota delta [assign_assistantContent].
  rewrite readLoop_lines, <- !app_assoc.
  change (actAll platform _ _ _) with
    (actAll platform (idAt world 3)
       (linesOf platform (new_TextDecoder platform) (chunks reader))
       (streaming world s)).
  destruct (actAll platform _ _ _) as [[|] m']; [|reflexivity].
  destruct (ending reader); reflexivity.
Qed.

(** *** Stream of fragments *)

Lemma eqb_refl (t : jsstring) : JS.eqb t t = true.
Proof.
  induction t as [|c t IH]; [reflexivity|].
  cbn [JS.eqb]. unfold code_eqb. rewrite N.eqb_refl. exact IH.
Qed.

Lemma withContent_id (assistantMessageId content : jsstring) (msg : Message.t) :
  Message.id (withContent assistantMessageId content msg) = Message.id msg.
Proof. unfold withContent. destruct (JS.eqb _ _); reflexivity. Qed.

Lemma withContent_role (assistantMessageId content : jsstring) (msg : Message.t) :
  Message.role (withContent assistantMessageId content msg) = Message.role msg.
Proof. unfold withContent. destruct (JS.eqb _ _); reflexivity. Qed.

Lemma withContent_again (assistantMessageId c1 c2 : jsstring) (msg : Message.t) :
  withContent assistantMessageId c2 (withContent assistantMessageId c1 msg)
  = withContent assistantMessageId c2 msg.
Proof.
  unfold withContent.
  destruct (JS.eqb (Message.id msg) assistantMessageId) eqn:E; cbn [Message.id];
    rewrite E; reflexivity.
Qed.

Lemma map_withContent_again (assistantMessageId c1 c2 : jsstring)
    (transcript : list Message.t) :
  map (withContent assistantMessageId c2)
      (map (withContent assistantMessageId c1) transcript)
  = map (withContent assistantMessageId c2) transcript.
Proof.
  rewrite map_map. apply map_ext. intros msg. apply withContent_again.
Qed.

Lemma map_withContent_last (assistantMessageId content c0 : jsstring)
    (before : list Message.t) (r : Role) (t : N) :
  map (withContent assistantMessageId content)
      (before ++ [Message.mk assistantMessageId c0 r t])
  = map (withContent assistantMessageId content) before
    ++ [Message.mk assistantMessageId content r t].
Proof.
  rewrite map_app. cbn [map]. unfold withContent at 2. cbn [Message.id].
  rewrite eqb_refl. reflexivity.
Qed.

Lemma streamed_content (assistantMessageId : jsstring) (pieces : list jsstring)
    (m : Machine) :
  assistantContent (streamed assistantMessageId pieces m)
  = assistantContent m ++ concat pieces.
Proof.
  revert m. induction pieces as [|piece rest IH]; intros m; cbn [streamed concat].
  - now rewrite app_nil_r.
  - rewrite IH. cbn [appended assistantContent]. now rewrite app_assoc.
Qed.

Lemma streamed_cells (assistantMessageId : jsstring) (pieces : list jsstring)
    (m : Machine) :
  inputMessage (state (streamed assistantMessageId pieces m)) = inputMessage (state m)
  /\ isLoading (state (streamed assistantMessageId pieces m)) = isLoading (state m)
  /\ isStreaming (state (streamed assistantMessageId pieces m)) = isStreaming (state m)
  /\ error (state (streamed assistantMessageId pieces m)) = error (state m)
  /\ tick (streamed assistantMessageId pieces m) = tick m.
Proof.
  revert m. induction pieces as [|piece rest IH]; intros m; cbn [streamed].
  - repeat split.
  - destruct (IH (appended assistantMessageId piece m)) as (H1 & H2 & H3 & H4 & H5).
    rewrite H1, H2, H3, H4, H5. repeat split.
Qed.

Lemma streamed_messages (assistantMessageId : jsstring) (pieces : list jsstring)
    (m : Machine) :
  pieces <> [] ->
  messages (state (streamed assistantMessageId pieces m))
  = map (withContent assistantMessageId (assistantContent m ++ concat pieces))
        (messages (state m)).
Proof.
  revert m. induction pieces as [|piece rest IH]; intros m Hne; [contradiction|].
  cbn [streamed concat]. destruct rest as [|piece' rest'].
  - cbn [streamed concat appended state messages]. now rewrite app_nil_r.
  - rewrite IH by discriminate.
    cbn [appended state messages assistantContent].
    rewrite map_withContent_again, <- app_assoc. reflexivity.
Qed.

Lemma streamed_log (assistantMessageId : jsstring) (pieces : list jsstring)
    (m : Machine) :
  log (streamed assistantMessageId pieces m)
  = log m
    ++ map (fun buffer =>
              SetMessages (map (withContent assistantMessageId buffer)
                               (messages (state m))))
           (cumulative (assistantContent m) pieces).
Proof.
  revert m. induction pieces as [|piece rest IH]; intros m;
    cbn [streamed cumulative map].
  - now rewrite app_nil_r.
  - rewrite IH. cbn [appended state messages assistantContent log].
    rewrite <- app_assoc. cbn [app]. do 2 f_equal.
    apply map_ext. intros buffer. now rewrite map_withContent_again.
Qed.

Lemma actAll_fragments (assistantMessageId : jsstring)
    (lines pieces : list jsstring) (m : Machine) :
  Fragments platform lines pieces ->
  actAll platform assistantMessageId lines m
  = (Continue, streamed assistantMessageId pieces m).
Proof.
  intros H. revert m.
  induction H as [|line piece lines pieces Hline _ IH|line lines pieces Hline _ IH];
    intros m; cbn [actAll streamed].
  - reflexivity.
  - rewrite (classify_fragment Hline). cbn [act]. apply IH.
  - rewrite (classify_unprefixed Hline). cbn [act]. apply IH.
Qed.

Lemma actAll_fragments_done (assistantMessageId : jsstring)
    (pre pieces : list jsstring) (closing : jsstring) (post : list jsstring)
    (m : Machine) :
  Fragments platform pre pieces ->
  done_line platform closing ->
  actAll platform assistantMessageId (pre ++ closing :: post) m
  = (Return, finished (streamed assistantMessageId pieces m)).
Proof.
  intros Hpre Hdone.
  rewrite actAll_app, (actAll_fragments _ _ Hpre). cbn [actAll].
  rewrite (classify_done Hdone). reflexivity.
Qed.

(** The loop body never changes the role or the number of the messages. *)
Lemma actAll_roles (assistantMessageId : jsstring) (lines : list jsstring)
    (m : Machine) :
  map Message.role (messages (state (snd (actAll platform assistantMessageId lines m))))
  = map Message.role (messages (state m)).
Proof.
  revert m. induction lines as [|line rest IH]; intros m; [reflexivity|].
  cbn [actAll].
  destruct (classify platform line) as [|e|piece|]; cbn [act snd];
    [apply IH | now rewrite IH | | reflexivity].
  rewrite IH. cbn [appended state messages]. rewrite map_map.
  apply map_ext. intros msg. apply withContent_role.
Qed.

Lemma countRole_roles (r : Role) (l1 l2 : list Message.t) :
  map Message.role l1 = map Message.role l2 -> countRole r l1 = countRole r l2.
Proof.
  unfold countRole. revert l2.
  induction l1 as [|a l1 IH]; intros [|b l2] H; try discriminate; [reflexivity|].
  injection H as Hab Hrest. cbn [filter]. rewrite Hab.
  destruct (role_eqb (Message.role b) r); cbn [length]; rewrite (IH _ Hrest);
    reflexivity.
Qed.

Lemma countRole_app (r : Role) (l1 l2 : list Message.t) :
  countRole r (l1 ++ l2) = countRole r l1 + countRole r l2.
Proof. unfold countRole. now rewrite filter_app, length_app. Qed.

Lemma actAll_log (assistantMessageId : jsstring) (lines : list jsstring)
    (m : Machine) :
  exists later,
    log (snd (actAll platform assistantMessageId lines m)) = log m ++ later.
Proof.
  revert m. induction lines as [|line rest IH]; intros m; cbn [actAll].
  - exists []. now rewrite app_nil_r.
  - destruct (classify platform line) as [|e|piece|]; cbn [act].
    + apply IH.
    + destruct (IH (warned e m)) as [later H]. rewrite H. cbn [warned log].
      rewrite <- app_assoc. eauto.
    + destruct (IH (appended assistantMessageId piece m)) as [later H].
      rewrite H. cbn [appended log]. rewrite <- app_assoc. eauto.
    + exists []. cbn [snd finished log]. now rewrite app_nil_r.
Qed.

(** *** The session state *)

Lemma idle_cells (s : State) :
  sessionState s = SessionState.idle ->
  isLoading s = false /\ isStreaming s = false /\ error s = None.
Proof.
  unfold sessionState.
  destruct (isLoading s), (isStreaming s), (error s); intros H;
    try discriminate H; repeat split.
Qed.

Lemma in_flight_cells (s : State) :
  sessionState s = SessionState.awaitingResponse
  \/ sessionState s = SessionState.streamingAssistantReply ->
  isLoading s = true \/ isStreaming s = true.
Proof.
  unfold sessionState.
  destruct (isLoading s), (isStreaming s), (error s); intros [H|H];
    try discriminate H; auto.
Qed.

(** *** [slice] with a negative start *)

Lemma slice_last (A : Type) (limit : Z) (l : list A) :
  (0 < limit)%Z ->
  slice (- limit) l = skipn (length l - Z.to_nat limit) l.
Proof.
  intros H. unfold slice.
  destruct (Z.ltb_spec (- limit) 0) as [_|Hge]; [|lia].
  f_equal. lia.
Qed.

Lemma skipn_suffix (A : Type) (n : nat) (l : list A) : Suffix (skipn n l) l.
Proof. exists (firstn n l). symmetry. apply firstn_skipn. Qed.

Lemma Suffix_map (A B : Type) (f : A -> B) (l1 l2 : list A) :
  Suffix l1 l2 -> Suffix (map f l1) (map f l2).
Proof. intros [front ->]. exists (map f front). apply map_app. Qed.

(** *** The first effects of an accepted submit *)

Lemma submit_log_head (s : State) :
  accepted s ->
  exists later,
    log (submit platform world s)
    = SetMessages (messages s ++ [userMessageOf world s])
      :: Fetch (requestUrl world) (requestOf s) :: later.
Proof.
  intros Hacc. rewrite (submit_accepted Hacc).
  destruct (network world (requestUrl world) (requestOf s)) as [e|response].
  - exists []. reflexivity.
  - destruct (ok response); [|exists []; reflexivity].
    destruct (body response) as [reader|]; [|eexists; reflexivity].
    pose proof (actAll_log (idAt world 3)
                  (linesOf platform (new_TextDecoder platform) (chunks reader))
                  (streaming world s)) as [later H].
    destruct (actAll platform _ _ _) as [[|] m']; cbn [snd] in H.
    + destruct (ending reader); cbn [failed log]; rewrite H; eexists; reflexivity.
    + rewrite H. eexists; reflexivity.
Qed.

Lemma submit_roles (s : State) :
  accepted s ->
  exists tail,
    map Message.role (messages (state (submit platform world s)))
    = map Message.role (messages s) ++ user :: tail
    /\ (tail = [] \/ tail = [assistant]).
Proof.
  intros Hacc. rewrite (submit_accepted Hacc).
  destruct (network world (requestUrl world) (requestOf s)) as [e|response].
  - exists []. cbn [failed requested state messages]. rewrite map_app. auto.
  - destruct (ok response);
      [|exists []; cbn [failed requested state messages]; rewrite map_app; auto].
    exists [assistant]. split; [|auto].
    destruct (body response) as [reader|];
      [|cbn [failed streaming state messages]; now rewrite map_app].
    pose proof (actAll_roles (idAt world 3)
                  (linesOf platform (new_TextDecoder platform) (chunks reader))
                  (streaming world s)) as H.
    destruct (actAll platform _ _ _) as [[|] m']; cbn [snd] in H.
    + destruct (ending reader); cbn [failed state messages]; rewrite H;
        cbn [streaming state messages]; now rewrite map_app.
    + rewrite H. cbn [streaming state messages]. now rewrite map_app.
Qed.

(* ----------------------------------------------------------------- *)
(** *** The guard *)

(** C4, amended.  A call made while an exchange is in flight (the session
    is awaiting the response or streaming the reply), or whose input is
    empty after trimming, is a guarded no-op: whatever machine the
    handler runs on is returned as it is, so the transcript is not
    touched and no request is issued. *)
Theorem submit_guard (s : State) :
  sessionState s = SessionState.awaitingResponse
  \/ sessionState s = SessionState.streamingAssistantReply
  \/ trim (inputMessage s) = [] ->
  (forall m, handleSendMessage platform world s m = (Normal tt, m))
  /\ state (submit platform world s) = s
  /\ log (submit platform world s) = [].
Proof.
  intros H.
  assert (G : forall m, handleSendMessage platform world s m = (Normal tt, m)).
  { intros m. apply guard_rejects.
    destruct H as [H|[H|H]]; [| |now left].
    - destruct (in_flight_cells s (or_introl H)); auto.
    - destruct (in_flight_cells s (or_intror H)); auto. }
  split; [exact G|]. unfold submit. rewrite G. split; reflexivity.
Qed.

(* ----------------------------------------------------------------- *)
(** *** The user turn *)

(** C5.  A submit made while the session is idle, with an input that is
    not empty after trimming, appends one user Message whose content is
    the trimmed input; that update is the first effect, the request
    comes after it, and the transcript the exchange ends with has exactly
    one user Message more than before. *)
Theorem submit_appends_user_message (s : State) :
  sessionState s = SessionState.idle ->
  trim (inputMessage s) <> [] ->
  Message.role (userMessageOf world s) = user
  /\ Message.content (userMessageOf world s) = trim (inputMessage s)
  /\ (exists later,
        log (submit platform world s)
        = SetMessages (messages s ++ [userMessageOf world s])
          :: Fetch (requestUrl world) (requestOf s) :: later)
  /\ countRole user (messages (state (submit platform world s)))
     = S (countRole user (messages s)).
Proof.
  intros Hidle Hin.
  destruct (idle_cells s Hidle) as (Hl & Hs & _).
  assert (Hacc : accepted s) by (repeat split; assumption).
  split; [reflexivity|]. split; [reflexivity|].
  split; [exact (submit_log_head Hacc)|].
  destruct (submit_roles Hacc) as (tail & Hroles & Htail).
  assert (E : countRole user (messages (state (submit platform world s)))
              = countRole user (messages s
                                ++ Message.mk [] [] user 0
                                   :: map (fun r => Message.mk [] [] r 0) tail)).
  { apply countRole_roles. rewrite Hroles, map_app. cbn [map Message.role].
    rewrite map_map. cbn [Message.role]. now rewrite map_id. }
  rewrite E, countRole_app.
  destruct Htail as [-> | ->]; cbn; lia.
Qed.

(** C1, amended.  For a submit accepted while the session is idle, the
    history of the outgoing request is computed from the transcript the
    handler captured, which does not hold the user turn yet: it is the
    last 6 messages (all of them when there are fewer) of the transcript
    as it stood before the user Message was appended, in order, a suffix
    of that transcript; the user text travels in the [message] field of
    the request. *)
Theorem request_history (s : State) :
  sessionState s = SessionState.idle ->
  trim (inputMessage s) <> [] ->
  (exists later,
     log (submit platform world s)
     = SetMessages (messages s ++ [userMessageOf world s])
       :: Fetch (requestUrl world) (requestOf s) :: later)
  /\ ChatRequest.message (requestOf s) = Message.content (userMessageOf world s)
  /\ ChatRequest.conversation_history (requestOf s)
     = map project (skipn (length (messages s) - 6) (messages s))
  /\ Suffix (ChatRequest.conversation_history (requestOf s))
            (map project (messages s))
  /\ length (ChatRequest.conversation_history (requestOf s)) <= 6.
Proof.
  intros Hidle Hin.
  destruct (idle_cells s Hidle) as (Hl & Hs & _).
  assert (Hacc : accepted s) by (repeat split; assumption).
  assert (E : ChatRequest.conversation_history (requestOf s)
              = map project (skipn (length (messages s) - 6) (messages s))).
  { cbn [requestOf ChatRequest.conversation_history].
    unfold getConversationHistory, recentHistory.
    now rewrite (slice_last (limit := 6)) by lia. }
  split; [exact (submit_log_head Hacc)|]. split; [reflexivity|].
  split; [exact E|]. rewrite E. split.
  - apply Suffix_map, skipn_suffix.
  - rewrite length_map, length_skipn. lia.
Qed.

(* ----------------------------------------------------------------- *)
(** *** The history *)


(* ----------------------------------------------------------------- *)
(** *** A refused request *)

(** C9.  When the response to an accepted submit has a status outside
    200-299, the exchange fails at once: the recorded error is
    [HTTP <status>: <statusText>], no assistant Message is created (the
    transcript is the former one plus the user Message), nothing is read,
    and the session state is [error]. *)
Theorem non_success_status (s : State) (response : Response) :
  accepted s ->
  network world (requestUrl world) (requestOf s) = inr response ->
  ok response = false ->
  error (state (submit platform world s))
  = Some (lit "HTTP " ++ integer_toString (status response)
          ++ lit ": " ++ statusText response)
  /\ messages (state (submit platform world s))
     = messages s ++ [userMessageOf world s]
  /\ log (submit platform world s)
     = [SetMessages (messages s ++ [userMessageOf world s]);
        Fetch (requestUrl world) (requestOf s)]
  /\ sessionState (state (submit platform world s)) = SessionState.error.
Proof.
  intros Hacc Hnet Hok.
  rewrite (submit_accepted Hacc), Hnet, Hok.
  repeat split.
Qed.

(* ----------------------------------------------------------------- *)
(** *** The streamed reply *)

(** What an accepted submit ends as when the response is a success with
    a body. *)
Lemma submit_streaming (s : State) (response : Response) (reader : ReadableStream) :
  accepted s ->
  network world (requestUrl world) (requestOf s) = inr response ->
  ok response = true ->
  body response = Some reader ->
  submit platform world s
  = match consume platform (idAt world 3)
            (linesOf platform (new_TextDecoder platform) (chunks reader))
            (ending reader) (streaming world s) with
    | (Normal _, m') => m'
    | (Throw e, m') => failed (caught_message platform e) m'
    end.
Proof.
  intros Hacc Hnet Hok Hbody.
  rewrite (submit_accepted Hacc), Hnet, Hok, Hbody. unfold consume.
  destruct (actAll platform _ _ _) as [[|] m']; [|reflexivity].
  destruct (ending reader); reflexivity.
Qed.

Lemma streamed_placeholder (pieces : list jsstring) (s : State) :
  exists before,
    messages (state (streamed (idAt world 3) pieces (streaming world s)))
    = before ++ [Message.mk (idAt world 3) (concat pieces) assistant
                            (Date_now world 5)]
    /\ length before = S (length (messages s)).
Proof.
  destruct pieces as [|piece rest].
  - exists (messages s ++ [userMessageOf world s]). cbn [streamed concat].
    cbn [streaming state messages]. rewrite <- app_assoc, length_app.
    cbn [app length]. split; [reflexivity | lia].
  - rewrite streamed_messages by discriminate.
    cbn [streaming state messages assistantContent app].
    change (messages s ++ [userMessageOf world s; placeholder world])
      with (messages s ++ [userMessageOf world s] ++ [placeholder world]).
    rewrite app_assoc. unfold placeholder at 1.
    rewrite map_withContent_last.
    eexists. split; [reflexivity|].
    rewrite length_map, length_app. cbn [length]. lia.
Qed.

(** C7.  On the success path (a 2xx response with a body, whose lines are
    fragment lines up to a first [done] line), each fragment is appended
    to the buffer and the transcript is updated with the assistant
    Message holding the whole buffer so far, in arrival order; at the
    [done] line the handler stops (whatever lines, reads or stream end
    follow), the assistant Message holds the concatenation of the
    fragments and the session is idle. *)
Theorem stream_until_done (s : State) (response : Response)
    (reader : ReadableStream) (pre : list jsstring) (closing : jsstring)
    (post pieces : list jsstring) :
  accepted s ->
  network world (requestUrl world) (requestOf s) = inr response ->
  ok response = true ->
  body response = Some reader ->
  linesOf platform (new_TextDecoder platform) (chunks reader)
  = pre ++ closing :: post ->
  Fragments platform pre pieces ->
  done_line platform closing ->
  log (submit platform world s)
  = [SetMessages (messages s ++ [userMessageOf world s]);
     Fetch (requestUrl world) (requestOf s);
     SetMessages (messages s ++ [userMessageOf world s; placeholder world])]
    ++ map (fun buffer =>
              SetMessages
                (map (withContent (idAt world 3) buffer)
                     (messages s ++ [userMessageOf world s; placeholder world])))
           (cumulative [] pieces)
  /\ (exists before,
        messages (state (submit platform world s))
        = before ++ [Message.mk (idAt world 3) (concat pieces) assistant
                                (Date_now world 5)]
        /\ length before = S (length (messages s)))
  /\ assistantContent (submit platform world s) = concat pieces
  /\ sessionState (state (submit platform world s)) = SessionState.idle.
Proof.
  intros Hacc Hnet Hok Hbody Hlines Hpre Hdone.
  rewrite (submit_streaming Hacc Hnet Hok Hbody). unfold consume.
  rewrite Hlines, (actAll_fragments_done _ _ _ Hpre Hdone).
  destruct (streamed_cells (idAt world 3) pieces (streaming world s))
    as (_ & Hl & _ & He & _).
  split; [|split; [|split]].
  - cbn [finished log]. now rewrite streamed_log.
  - cbn [finished state messages]. apply streamed_placeholder.
  - cbn [finished assistantContent]. now rewrite streamed_content.
  - unfold sessionState. cbn [finished state isLoading isStreaming error].
    rewrite Hl, He. reflexivity.
Qed.

(** C3 on the code.  When the stream of a successful response consists of
    fragment lines and ends (end of data) without a [done] line, the
    handler leaves the loop without another state update: no error is
    recorded and the assistant Message holds the fragments received, but
    [isStreaming] stays raised, so the session is left streaming and
    every later submit is turned away by the guard. *)
Theorem stream_end_without_done (s : State) (response : Response)
    (reader : ReadableStream) (lines pieces : list jsstring) :
  accepted s ->
  network world (requestUrl world) (requestOf s) = inr response ->
  ok response = true ->
  body response = Some reader ->
  linesOf platform (new_TextDecoder platform) (chunks reader) = lines ->
  Fragments platform lines pieces ->
  ending reader = EndOfData ->
  (exists before,
     messages (state (submit platform world s))
     = before ++ [Message.mk (idAt world 3) (concat pieces) assistant
                             (Date_now world 5)]
     /\ length before = S (length (messages s)))
  /\ error (state (submit platform world s)) = None
  /\ sessionState (state (submit platform world s))
     = SessionState.streamingAssistantReply
  /\ (forall m, handleSendMessage platform world
                  (state (submit platform world s)) m = (Normal tt, m)).
Proof.
  intros Hacc Hnet Hok Hbody Hlines Hfrag Hend.
  rewrite (submit_streaming Hacc Hnet Hok Hbody). unfold consume.
  rewrite Hlines, (actAll_fragments _ _ Hfrag), Hend. cbn [endOfReads ret].
  destruct (streamed_cells (idAt world 3) pieces (streaming world s))
    as (_ & Hl & Hs & He & _).
  assert (Hstate : sessionState (state (streamed (idAt world 3) pieces
                                                 (streaming world s)))
                   = SessionState.streamingAssistantReply).
  { unfold sessionState. rewrite Hl, Hs. reflexivity. }
  split; [apply streamed_placeholder|]. split; [now rewrite He|].
  split; [exact Hstate|].
  intros m. apply guard_rejects. right. right. now rewrite Hs.
Qed.

(** C2 on the code.  An [error] line is thrown inside the [try] that
    guards parsing, so it is caught there: the line only logs a warning.
    When the first line of the stream of a successful response is an
    [error] line and fragment lines follow up to the end of data, the
    fragments are applied, no error is recorded and the session is left
    streaming. *)
Theorem error_line_is_swallowed (s : State) (response : Response)
    (reader : ReadableStream) (first message : jsstring)
    (lines pieces : list jsstring) :
  accepted s ->
  network world (requestUrl world) (requestOf s) = inr response ->
  ok response = true ->
  body response = Some reader ->
  linesOf platform (new_TextDecoder platform) (chunks reader) = first :: lines ->
  error_line platform first message ->
  Fragments platform lines pieces ->
  ending reader = EndOfData ->
  (forall assistantMessageId m,
     dispatch platform assistantMessageId first m
     = (Normal Continue, warned (Error message) m))
  /\ (exists before,
        messages (state (submit platform world s))
        = before ++ [Message.mk (idAt world 3) (concat pieces) assistant
                                (Date_now world 5)]
        /\ length before = S (length (messages s)))
  /\ error (state (submit platform world s)) = None
  /\ sessionState (state (submit platform world s))
     = SessionState.streamingAssistantReply
  /\ In (ConsoleWarn (Error message)) (log (submit platform world s)).
Proof.
  intros Hacc Hnet Hok Hbody Hlines Herr Hfrag Hend.
  split.
  { intros assistantMessageId m.
    rewrite dispatch_act, (classify_error Herr). reflexivity. }
  rewrite (submit_streaming Hacc Hnet Hok Hbody). unfold consume.
  rewrite Hlines. cbn [actAll]. rewrite (classify_error Herr). cbn [act].
  rewrite (actAll_fragments _ _ Hfrag), Hend. cbn [endOfReads ret].
  set (m0 := warned (Error message) (streaming world s)).
  destruct (streamed_cells (idAt world 3) pieces m0) as (_ & Hl & Hs & He & _).
  split; [|split; [|split]].
  - destruct pieces as [|piece rest].
    + apply (streamed_placeholder [] s).
    + rewrite streamed_messages by discriminate.
      pose proof (streamed_placeholder (piece :: rest) s) as (before & Hb & Hlen).
      rewrite streamed_messages in Hb by discriminate.
      exists before. split; [exact Hb | exact Hlen].
  - now rewrite He.
  - unfold sessionState. rewrite Hl, Hs. reflexivity.
  - rewrite streamed_log. apply in_or_app. left.
    cbn [m0 warned log streaming]. apply in_or_app. right. now left.
Qed.

(* ----------------------------------------------------------------- *)
(** *** Lines that are dropped *)

Lemma sameButWarnings_refl (m : Machine) : sameButWarnings m m.
Proof. repeat split. Qed.

Lemma sameButWarnings_trans (m1 m2 m3 : Machine) :
  sameButWarnings m1 m2 -> sameButWarnings m2 m3 -> sameButWarnings m1 m3.
Proof.
  intros (A1 & A2 & A3 & A4) (B1 & B2 & B3 & B4).
  repeat split; etransitivity; eassumption.
Qed.

Lemma warned_same (e : exn) (m : Machine) : sameButWarnings (warned e m) m.
Proof.
  repeat split. cbn [warned log]. rewrite filter_app. cbn. apply app_nil_r.
Qed.

Lemma act_same (assistantMessageId : jsstring) (a : Action) (m1 m2 : Machine) :
  sameButWarnings m1 m2 ->
  fst (act assistantMessageId a m1) = fst (act assistantMessageId a m2)
  /\ sameButWarnings (snd (act assistantMessageId a m1))
                     (snd (act assistantMessageId a m2)).
Proof.
  intros (Hst & Hc & Ht & Hlog).
  destruct a as [|e|piece|]; cbn [act fst snd]; (split; [reflexivity|]).
  - repeat split; assumption.
  - repeat split; try assumption. cbn [warned log].
    rewrite !filter_app. cbn. now rewrite !app_nil_r.
  - unfold sameButWarnings, appended. cbn [state assistantContent tick log].
    rewrite Hst, Hc, Ht, !filter_app, Hlog. repeat split.
  - unfold sameButWarnings, finished. cbn [state assistantContent tick log].
    rewrite Hst, Hc, Ht, Hlog. repeat split.
Qed.

Lemma actAll_same (assistantMessageId : jsstring) (lines : list jsstring)
    (m1 m2 : Machine) :
  sameButWarnings m1 m2 ->
  fst (actAll platform assistantMessageId lines m1)
  = fst (actAll platform assistantMessageId lines m2)
  /\ sameButWarnings (snd (actAll platform assistantMessageId lines m1))
                     (snd (actAll platform assistantMessageId lines m2)).
Proof.
  revert m1 m2. induction lines as [|line rest IH]; intros m1 m2 H.
  - split; [reflexivity | exact H].
  - cbn [actAll].
    destruct (act_same assistantMessageId (classify platform line) H) as [Hc Hm].
    destruct (act assistantMessageId (classify platform line) m1) as [c1 m1'].
    destruct (act assistantMessageId (classify platform line) m2) as [c2 m2'].
    cbn [fst snd] in Hc, Hm. subst c2.
    destruct c1; [apply IH; exact Hm | split; [reflexivity | exact Hm]].
Qed.

Lemma consume_same (assistantMessageId : jsstring) (lines : list jsstring)
    (last : StreamEnd) (m1 m2 : Machine) :
  sameButWarnings m1 m2 ->
  fst (consume platform assistantMessageId lines last m1)
  = fst (consume platform assistantMessageId lines last m2)
  /\ sameButWarnings (snd (consume platform assistantMessageId lines last m1))
                     (snd (consume platform assistantMessageId lines last m2)).
Proof.
  intros H. unfold consume.
  destruct (actAll_same assistantMessageId lines H) as [Hc Hm].
  destruct (actAll platform assistantMessageId lines m1) as [c1 m1'].
  destruct (actAll platform assistantMessageId lines m2) as [c2 m2'].
  cbn [fst snd] in Hc, Hm. subst c2.
  destruct c1; [|split; [reflexivity | exact Hm]].
  destruct last; cbn [endOfReads ret throw fst snd]; split;
    solve [reflexivity | exact Hm].
Qed.

Lemma consume_app (assistantMessageId : jsstring) (l1 l2 : list jsstring)
    (last : StreamEnd) (m : Machine) :
  consume platform assistantMessageId (l1 ++ l2) last m
  = match actAll platform assistantMessageId l1 m with
    | (Return, m') => (Normal tt, m')
    | (Continue, m') => consume platform assistantMessageId l2 last m'
    end.
Proof.
  unfold consume. rewrite actAll_app.
  destruct (actAll platform assistantMessageId l1 m) as [[|] m']; reflexivity.
Qed.

(** A line whose action is to do nothing or to warn can be taken out of
    the stream: the loop ends the same way, on machines that differ at
    most in their warnings. *)
Lemma consume_drop (assistantMessageId : jsstring) (pre : list jsstring)
    (bad : jsstring) (post : list jsstring) (last : StreamEnd) (m : Machine) :
  classify platform bad = Ignore \/ (exists e, classify platform bad = Warn e) ->
  fst (consume platform assistantMessageId (pre ++ bad :: post) last m)
  = fst (consume platform assistantMessageId (pre ++ post) last m)
  /\ sameButWarnings
       (snd (consume platform assistantMessageId (pre ++ bad :: post) last m))
       (snd (consume platform assistantMessageId (pre ++ post) last m)).
Proof.
  intros Hbad. rewrite !consume_app.
  destruct (actAll platform assistantMessageId pre m) as [[|] m'];
    [|split; [reflexivity | apply sameButWarnings_refl]].
  destruct Hbad as [Hbad | [e Hbad]].
  - assert (E : consume platform assistantMessageId (bad :: post) last m'
                = consume platform assistantMessageId post last m').
    { unfold consume. cbn [actAll]. now rewrite Hbad. }
    rewrite E. split; [reflexivity | apply sameButWarnings_refl].
  - assert (E : consume platform assistantMessageId (bad :: post) last m'
                = consume platform assistantMessageId post last (warned e m')).
    { unfold consume. cbn [actAll]. now rewrite Hbad. }
    rewrite E. apply consume_same, warned_same.
Qed.

Lemma readLoop_consume (assistantMessageId : jsstring)
    (decoder : TextDecoder platform) (reads : list (list byte))
    (last : StreamEnd) (m : Machine) :
  readLoop platform assistantMessageId decoder reads last m
  = consume platform assistantMessageId (linesOf platform decoder reads) last m.
Proof. apply readLoop_lines. Qed.

(** C8.  A [data: ] line whose remainder does not parse is dropped with a
    warning, and a line without the prefix is ignored; neither aborts the
    exchange: a read loop whose lines hold such a line anywhere ends as
    the loop over the same lines without it does, the fragments of the
    lines around it accumulated alike, on machines that differ at most
    in the warnings logged. *)
Theorem malformed_line_is_dropped (assistantMessageId : jsstring)
    (decoder decoder' : TextDecoder platform) (reads reads' : list (list byte))
    (last : StreamEnd) (pre : list jsstring) (bad : jsstring)
    (post : list jsstring) (m : Machine) :
  linesOf platform decoder reads = pre ++ bad :: post ->
  linesOf platform decoder' reads' = pre ++ post ->
  malformed_line platform bad \/ unprefixed_line bad ->
  dispatch platform assistantMessageId bad m
  = (Normal Continue,
     if startsWith (lit "data: ") bad then warned (Native SyntaxError) m else m)
  /\ fst (readLoop platform assistantMessageId decoder reads last m)
     = fst (readLoop platform assistantMessageId decoder' reads' last m)
  /\ sameButWarnings
       (snd (readLoop platform assistantMessageId decoder reads last m))
       (snd (readLoop platform assistantMessageId decoder' reads' last m)).
Proof.
  intros Hlines Hlines' Hbad. split.
  - rewrite dispatch_act.
    destruct Hbad as [Hm | Hu].
    + rewrite (classify_malformed Hm). destruct Hm as [-> _]. reflexivity.
    + rewrite (classify_unprefixed Hu). unfold unprefixed_line in Hu.
      rewrite Hu. reflexivity.
  - rewrite !readLoop_consume, Hlines, Hlines'. apply consume_drop.
    destruct Hbad as [Hm | Hu].
    + right. eexists. apply (classify_malformed Hm).
    + left. apply (classify_unprefixed Hu).
Qed.

(** Two consecutive lines without a payload, the last line of one read
    and the first of the next, are dropped: the loop ends as it does on
    the other lines of the two reads alone. *)
Lemma unparsed_halves_are_dropped (assistantMessageId : jsstring)
    (decoder decoder1 decoder2 : TextDecoder platform)
    (value1 value2 : list byte) (rest : list (list byte)) (last : StreamEnd)
    (text1 text2 : jsstring) (before after : list jsstring)
    (h1 h2 : jsstring) (m : Machine) :
  decode platform decoder value1 = (text1, decoder1) ->
  decode platform decoder1 value2 = (text2, decoder2) ->
  split 10 text1 = before ++ [h1] ->
  split 10 text2 = h2 :: after ->
  payload platform h1 = None ->
  payload platform h2 = None ->
  fst (readLoop platform assistantMessageId decoder
         (value1 :: value2 :: rest) last m)
  = fst (consume platform assistantMessageId
           (before ++ after ++ linesOf platform decoder2 rest) last m)
  /\ sameButWarnings
       (snd (readLoop platform assistantMessageId decoder
               (value1 :: value2 :: rest) last m))
       (snd (consume platform assistantMessageId
               (before ++ after ++ linesOf platform decoder2 rest) last m)).
Proof.
  intros Hd1 Hd2 Hs1 Hs2 Hp1 Hp2.
  assert (Hharmless : forall h, payload platform h = None ->
            classify platform h = Ignore
            \/ (exists e, classify platform h = Warn e)).
  { intros h Hp. destruct (classify_no_payload h Hp) as [H|H]; eauto. }
  rewrite readLoop_consume. cbn [linesOf]. rewrite Hd1, Hd2, Hs1, Hs2.
  rewrite <- app_assoc. cbn [app].
  destruct (consume_drop assistantMessageId before h1
              (h2 :: after ++ linesOf platform decoder2 rest) last m
              (Hharmless h1 Hp1)) as [Hc1 Hm1].
  destruct (consume_drop assistantMessageId before h2
              (after ++ linesOf platform decoder2 rest) last m
              (Hharmless h2 Hp2)) as [Hc2 Hm2].
  split; [now rewrite Hc1 | exact (sameButWarnings_trans Hm1 Hm2)].
Qed.

End Properties.

(* ================================================================= *)
(** ** The properties on the examples *)

Module Examples.

Import Example.

Lemma asking_accepted (text : string) :
  trim (lit text) <> [] -> accepted (asking text).
Proof. intros H. repeat split. exact H. Qed.

Lemma hi_accepted : accepted (asking "hi").
Proof. apply asking_accepted. vm_compute. discriminate. Defined.

(** A question typed into the fresh component is sent with a history
    that holds the greeting only. *)
Lemma request_history_witness :
  (exists later,
     log (run refusal (asking "hi"))
     = SetMessages (messages (asking "hi")
                    ++ [userMessageOf (world refusal) (asking "hi")])
       :: Fetch (requestUrl (world refusal)) (requestOf (asking "hi")) :: later)
  /\ ChatRequest.message (requestOf (asking "hi"))
     = Message.content (userMessageOf (world refusal) (asking "hi"))
  /\ ChatRequest.conversation_history (requestOf (asking "hi"))
     = map project (skipn (length (messages (asking "hi")) - 6)
                          (messages (asking "hi")))
  /\ Suffix (ChatRequest.conversation_history (requestOf (asking "hi")))
            (map project (messages (asking "hi")))
  /\ length (ChatRequest.conversation_history (requestOf (asking "hi"))) <= 6.
Proof.
  apply (@request_history Host.platform (world refusal) (asking "hi")).
  - reflexivity.
  - vm_compute. discriminate.
Defined.

(** The history of that request does not end with the user turn, and is
    not a suffix of the transcript the request is issued on. *)
Lemma history_omits_user_turn :
  exists url history,
    In (Fetch url (ChatRequest.mk (lit "hi") history))
       (log (run refusal (asking "hi")))
    /\ ~ (exists front,
            history = front ++ [ConversationHistory.mk user (lit "hi")])
    /\ ~ Suffix history
           (map project (messages (asking "hi")
                         ++ [userMessageOf (world refusal) (asking "hi")])).
Proof.
  exists (requestUrl (world refusal)), [project (greeting 0)].
  split; [right; left; reflexivity|]. split.
  - intros [front H]. destruct front as [|a [|b front]]; cbv in H; discriminate H.
  - intros [front H].
    destruct front as [|a [|b [|c front]]]; cbv in H; discriminate H.
Qed.

(** A blank input is turned away. *)
Lemma submit_guard_witness :
  (forall m, handleSendMessage Host.platform (world refusal) (asking "   ") m
             = (Normal tt, m))
  /\ state (run refusal (asking "   ")) = asking "   "
  /\ log (run refusal (asking "   ")) = [].
Proof.
  apply (@submit_guard Host.platform (world refusal) (asking "   ")).
  right. right. reflexivity.
Defined.

(** After a refused exchange the session state is [error], not [idle],
    and a submit goes through all the same. *)
Lemma submit_after_failure_goes_through :
  sessionState (afterFailure "again") <> SessionState.idle
  /\ messages (state (run refusal (afterFailure "again")))
     <> messages (afterFailure "again")
  /\ exists url request,
       In (Fetch url request) (log (run refusal (afterFailure "again"))).
Proof.
  split; [discriminate|]. split; [vm_compute; discriminate|].
  exists (requestUrl (world refusal)), (requestOf (afterFailure "again")).
  right. left. reflexivity.
Qed.

Lemma submit_appends_user_message_witness :
  Message.role (userMessageOf (world refusal) (asking "  hi ")) = user
  /\ Message.content (userMessageOf (world refusal) (asking "  hi "))
     = trim (inputMessage (asking "  hi "))
  /\ (exists later,
        log (run refusal (asking "  hi "))
        = SetMessages (messages (asking "  hi ")
                       ++ [userMessageOf (world refusal) (asking "  hi ")])
          :: Fetch (requestUrl (world refusal)) (requestOf (asking "  hi "))
          :: later)
  /\ countRole user (messages (state (run refusal (asking "  hi "))))
     = S (countRole user (messages (asking "  hi "))).
Proof.
  apply (@submit_appends_user_message Host.platform (world refusal) (asking "  hi ")).
  - reflexivity.
  - vm_compute. discriminate.
Defined.


(** A 500 response. *)
Lemma non_success_status_witness :
  error (state (run refusal (asking "hi")))
  = Some (lit "HTTP " ++ integer_toString 500 ++ lit ": "
          ++ lit "Internal Server Error")
  /\ messages (state (run refusal (asking "hi")))
     = messages (asking "hi") ++ [userMessageOf (world refusal) (asking "hi")]
  /\ log (run refusal (asking "hi"))
     = [SetMessages (messages (asking "hi")
                     ++ [userMessageOf (world refusal) (asking "hi")]);
        Fetch (requestUrl (world refusal)) (requestOf (asking "hi"))]
  /\ sessionState (state (run refusal (asking "hi"))) = SessionState.error.
Proof.
  apply (@non_success_status Host.platform (world refusal) (asking "hi")
           {| status := 500; statusText := lit "Internal Server Error";
              body := None |}).
  - exact hi_accepted.
  - reflexivity.
  - reflexivity.
Defined.

Lemma hello_fragments :
  Fragments Host.platform
    [wire "data: {'chunk':'Hel'}"; []; wire "data: {'chunk':'lo'}"; []]
    [lit "Hel"; lit "lo"].
Proof.
  apply Fragments_piece; [line|]. apply Fragments_skip; [reflexivity|].
  apply Fragments_piece; [line|]. apply Fragments_skip; [reflexivity|].
  apply Fragments_nil.
Defined.

(** The stream [Hel], [lo], [done]: the assistant Message ends as
    [Hello] and the session idle. *)
Lemma stream_until_done_witness :
  log (run (reply hello EndOfData) (asking "hi"))
  = [SetMessages (messages (asking "hi")
                  ++ [userMessageOf (world (reply hello EndOfData)) (asking "hi")]);
     Fetch (requestUrl (world (reply hello EndOfData))) (requestOf (asking "hi"));
     SetMessages (messages (asking "hi")
                  ++ [userMessageOf (world (reply hello EndOfData)) (asking "hi");
                      placeholder (world (reply hello EndOfData))])]
    ++ map (fun buffer =>
              SetMessages
                (map (withContent (idAt (world (reply hello EndOfData)) 3) buffer)
                     (messages (asking "hi")
                      ++ [userMessageOf (world (reply hello EndOfData)) (asking "hi");
                          placeholder (world (reply hello EndOfData))])))
           (cumulative [] [lit "Hel"; lit "lo"])
  /\ (exists before,
        messages (state (run (reply hello EndOfData) (asking "hi")))
        = before ++ [Message.mk (idAt (world (reply hello EndOfData)) 3)
                                (lit "Hello") assistant
                                (Date_now (world (reply hello EndOfData)) 5)]
        /\ length before = S (length (messages (asking "hi"))))
  /\ assistantContent (run (reply hello EndOfData) (asking "hi")) = lit "Hello"
  /\ sessionState (state (run (reply hello EndOfData) (asking "hi")))
     = SessionState.idle.
Proof.
  apply (@stream_until_done Host.platform (world (reply hello EndOfData))
           (asking "hi")
           {| status := 200; statusText := lit "OK";
              body := Some {| chunks := hello; ending := EndOfData |} |}
           {| chunks := hello; ending := EndOfData |}
           [wire "data: {'chunk':'Hel'}"; []; wire "data: {'chunk':'lo'}"; []]
           (wire "data: {'done':true}")
           [[]]
           [lit "Hel"; lit "lo"]).
  - exact hi_accepted.
  - reflexivity.
  - reflexivity.
  - reflexivity.
  - evaluate.
  - exact hello_fragments.
  - line.
Defined.

(** The stream [partial] and then the end of data: the content stands,
    no error is recorded, and the session is left streaming. *)
Lemma stream_end_without_done_witness :
  (exists before,
     messages (state (run (reply partial EndOfData) (asking "hi")))
     = before ++ [Message.mk (idAt (world (reply partial EndOfData)) 3)
                             (lit "partial") assistant
                             (Date_now (world (reply partial EndOfData)) 5)]
     /\ length before = S (length (messages (asking "hi"))))
  /\ error (state (run (reply partial EndOfData) (asking "hi"))) = None
  /\ sessionState (state (run (reply partial EndOfData) (asking "hi")))
     = SessionState.streamingAssistantReply
  /\ (forall m, handleSendMessage Host.platform (world (reply partial EndOfData))
                  (state (run (reply partial EndOfData) (asking "hi"))) m
                = (Normal tt, m)).
Proof.
  apply (@stream_end_without_done Host.platform (world (reply partial EndOfData))
           (asking "hi")
           {| status := 200; statusText := lit "OK";
              body := Some {| chunks := partial; ending := EndOfData |} |}
           {| chunks := partial; ending := EndOfData |}
           [wire "data: {'chunk':'partial'}"; []]
           [lit "partial"]).
  - exact hi_accepted.
  - reflexivity.
  - reflexivity.
  - reflexivity.
  - evaluate.
  - apply Fragments_piece; [line|]. apply Fragments_skip; [reflexivity|].
    apply Fragments_nil.
  - reflexivity.
Defined.

(** The stream [error: boom] followed by a fragment and the end of
    data: the fragment is applied, no error is recorded, the session is
    left streaming. *)
Lemma error_line_is_swallowed_witness :
  (forall assistantMessageId m,
     dispatch Host.platform assistantMessageId (wire "data: {'error':'boom'}") m
     = (Normal Continue, warned (Error (lit "boom")) m))
  /\ (exists before,
        messages (state (run (reply boomThenMore EndOfData) (asking "hi")))
        = before ++ [Message.mk (idAt (world (reply boomThenMore EndOfData)) 3)
                                (lit "late") assistant
                                (Date_now (world (reply boomThenMore EndOfData)) 5)]
        /\ length before = S (length (messages (asking "hi"))))
  /\ error (state (run (reply boomThenMore EndOfData) (asking "hi"))) = None
  /\ sessionState (state (run (reply boomThenMore EndOfData) (asking "hi")))
     = SessionState.streamingAssistantReply
  /\ In (ConsoleWarn (Error (lit "boom")))
        (log (run (reply boomThenMore EndOfData) (asking "hi"))).
Proof.
  apply (@error_line_is_swallowed Host.platform
           (world (reply boomThenMore EndOfData)) (asking "hi")
           {| status := 200; statusText := lit "OK";
              body := Some {| chunks := boomThenMore; ending := EndOfData |} |}
           {| chunks := boomThenMore; ending := EndOfData |}
           (wire "data: {'error':'boom'}") (lit "boom")
           [[]; wire "data: {'chunk':'late'}"; []]
           [lit "late"]).
  - exact hi_accepted.
  - reflexivity.
  - reflexivity.
  - reflexivity.
  - evaluate.
  - line.
  - apply Fragments_skip; [reflexivity|]. apply Fragments_piece; [line|].
    apply Fragments_skip; [reflexivity|]. apply Fragments_nil.
  - reflexivity.
Defined.

(** The stream whose only payload is [error: boom]: the placeholder
    keeps its empty content, but no error is recorded and the session is
    not in its [error] state. *)
Lemma boom_is_not_reported :
  map Message.content (messages (state (run (reply boom EndOfData) (asking "hi"))))
  = [Message.content (greeting 0); lit "hi"; []]
  /\ error (state (run (reply boom EndOfData) (asking "hi"))) = None
  /\ sessionState (state (run (reply boom EndOfData) (asking "hi")))
     = SessionState.streamingAssistantReply.
Proof. repeat split; evaluate. Qed.

(** A malformed line between two fragment lines. *)
Lemma malformed_line_is_dropped_witness :
  dispatch Host.platform (lit "a") (wire "data: {not valid json}")
           (streaming (world refusal) (asking "hi"))
  = (Normal Continue,
     if startsWith (lit "data: ") (wire "data: {not valid json}")
     then warned (Native SyntaxError) (streaming (world refusal) (asking "hi"))
     else streaming (world refusal) (asking "hi"))
  /\ fst (readLoop Host.platform (lit "a") Host.new_TextDecoder interleaved
            EndOfData (streaming (world refusal) (asking "hi")))
     = fst (readLoop Host.platform (lit "a") Host.new_TextDecoder clean
              EndOfData (streaming (world refusal) (asking "hi")))
  /\ sameButWarnings
       (snd (readLoop Host.platform (lit "a") Host.new_TextDecoder interleaved
               EndOfData (streaming (world refusal) (asking "hi"))))
       (snd (readLoop Host.platform (lit "a") Host.new_TextDecoder clean
               EndOfData (streaming (world refusal) (asking "hi")))).
Proof.
  apply (@malformed_line_is_dropped Host.platform (lit "a")
           Host.new_TextDecoder Host.new_TextDecoder interleaved clean EndOfData
           [wire "data: {'chunk':'Hel'}"]
           (wire "data: {not valid json}")
           [wire "data: {'chunk':'lo'}"; []]
           (streaming (world refusal) (asking "hi"))).
  - evaluate.
  - evaluate.
  - left. split; evaluate.
Defined.

(** On that stream the two fragments around the malformed line make up
    the content. *)
Lemma interleaved_accumulates :
  assistantContent (run (reply interleaved EndOfData) (asking "hi")) = lit "Hello".
Proof. evaluate. Qed.


End Examples.

(* ================================================================= *)
(** ** Further properties of the component *)

Section Further.

Variable platform : Platform.
Variable world : World.

(** *** What the loop body keeps *)

Lemma act_cells (assistantMessageId : jsstring) (a : Action) (m : Machine) :
  inputMessage (state (snd (act assistantMessageId a m))) = inputMessage (state m)
  /\ isLoading (state (snd (act assistantMessageId a m))) = isLoading (state m)
  /\ error (state (snd (act assistantMessageId a m))) = error (state m)
  /\ tick (snd (act assistantMessageId a m)) = tick m
  /\ map frame (messages (state (snd (act assistantMessageId a m))))
     = map frame (messages (state m))
  /\ filter isFetch (log (snd (act assistantMessageId a m)))
     = filter isFetch (log m)
  /\ (exists added,
        assistantContent (snd (act assistantMessageId a m))
        = assistantContent m ++ added).
Proof.
  destruct a as [|e|piece|]; cbn [act snd].
  - repeat split. exists []. now rewrite app_nil_r.
  - repeat split.
    + cbn [warned log]. rewrite filter_app. cbn. apply app_nil_r.
    + exists []. cbn [warned assistantContent]. now rewrite app_nil_r.
  - repeat split.
    + cbn [appended state messages]. rewrite map_map. apply map_ext.
      intros msg. unfold frame, withContent.
      destruct (JS.eqb (Message.id msg) assistantMessageId); reflexivity.
    + cbn [appended log]. rewrite filter_app. cbn. apply app_nil_r.
    + exists piece. reflexivity.
  - repeat split. exists []. cbn [finished assistantContent].
    now rewrite app_nil_r.
Qed.

Lemma actAll_cells (assistantMessageId : jsstring) (lines : list jsstring)
    (m : Machine) :
  inputMessage (state (snd (actAll platform assistantMessageId lines m)))
  = inputMessage (state m)
  /\ isLoading (state (snd (actAll platform assistantMessageId lines m)))
     = isLoading (state m)
  /\ error (state (snd (actAll platform assistantMessageId lines m)))
     = error (state m)
  /\ tick (snd (actAll platform assistantMessageId lines m)) = tick m
  /\ map frame (messages (state (snd (actAll platform assistantMessageId lines m))))
     = map frame (messages (state m))
  /\ filter isFetch (log (snd (actAll platform assistantMessageId lines m)))
     = filter isFetch (log m)
  /\ (exists added,
        assistantContent (snd (actAll platform assistantMessageId lines m))
        = assistantContent m ++ added).
Proof.
  revert m. induction lines as [|line rest IH]; intros m; cbn [actAll].
  - cbn [snd]. repeat split. exists []. now rewrite app_nil_r.
  - pose proof (act_cells assistantMessageId (classify platform line) m)
      as (A1 & A2 & A3 & A4 & A5 & A6 & added & A7).
    destruct (act assistantMessageId (classify platform line) m) as [[|] m'];
      cbn [snd] in *.
    + destruct (IH m') as (B1 & B2 & B3 & B4 & B5 & B6 & added' & B7).
      rewrite B1, B2, B3, B4, B5, B6, B7, A1, A2, A3, A4, A5, A6, A7.
      repeat split. exists (added ++ added'). now rewrite app_assoc.
    + repeat split; try assumption. exists added. exact A7.
Qed.

Lemma consume_cells (assistantMessageId : jsstring) (lines : list jsstring)
    (last : StreamEnd) (m : Machine) :
  inputMessage (state (snd (consume platform assistantMessageId lines last m)))
  = inputMessage (state m)
  /\ isLoading (state (snd (consume platform assistantMessageId lines last m)))
     = isLoading (state m)
  /\ error (state (snd (consume platform assistantMessageId lines last m)))
     = error (state m)
  /\ tick (snd (consume platform assistantMessageId lines last m)) = tick m
  /\ map frame (messages (state (snd (consume platform assistantMessageId lines last m))))
     = map frame (messages (state m))
  /\ filter isFetch (log (snd (consume platform assistantMessageId lines last m)))
     = filter isFetch (log m)
  /\ (exists added,
        assistantContent (snd (consume platform assistantMessageId lines last m))
        = assistantContent m ++ added).
Proof.
  unfold consume.
  pose proof (actAll_cells assistantMessageId lines m) as H.
  destruct (actAll platform assistantMessageId lines m) as [[|] m'];
    cbn [snd] in *; [|exact H].
  destruct last; exact H.
Qed.

Lemma handleSendMessage_normal (closure : State) (m : Machine) :
  fst (handleSendMessage platform world closure m) = Normal tt.
Proof.
  unfold handleSendMessage.
  destruct (negb (JS.ToBoolean (trim (inputMessage closure)))
            || isLoading closure || isStreaming closure); [reflexivity|].
  cbv beta iota delta [try_catch bind fetch generateId Date_now_
    Math_random_toString36_ setMessages setInputMessage setIsLoading
    setIsStreaming setError update emit draw ret fst snd state
    assistantContent tick log messages inputMessage isLoading isStreaming
    error].
  destruct (network world _ _) as [e|response]; [reflexivity|].
  cbv beta iota delta [lift ret].
  destruct (ok response); cbv beta iota delta [negb throw]; [|reflexivity].
  destruct (body response) as [reader|]; [|reflexivity].
  cbv beta iota delta [assign_assistantContent].
  destruct (readLoop platform _ _ _ _ _) as [[[]|e] m']; reflexivity.
Qed.

(** X1.  [handleSendMessage] never throws: whatever the network, the
    stream and the payloads do, every exception is caught inside the
    handler, so the promise it returns (which [handleKeyPress] and the
    send button do not await) is never rejected. *)
Theorem handleSendMessage_never_throws (closure : State) (m : Machine) :
  fst (handleSendMessage platform world closure m) = Normal tt.
Proof. apply handleSendMessage_normal. Qed.

(** X2.  Whatever a line of the stream holds, the loop body completes
    normally on it and touches nothing but the contents of the
    transcript, the buffer, [isStreaming] and the log: the input, the
    loading flag, the recorded error and the id, role and timestamp of
    every message stay as they are, no request is issued, the buffer is
    only extended, and [isStreaming] is lowered exactly when the body
    returns. *)
Theorem dispatch_is_contained (assistantMessageId line : jsstring) (m : Machine) :
  exists c m',
    dispatch platform assistantMessageId line m = (Normal c, m')
    /\ inputMessage (state m') = inputMessage (state m)
    /\ isLoading (state m') = isLoading (state m)
    /\ error (state m') = error (state m)
    /\ map frame (messages (state m')) = map frame (messages (state m))
    /\ filter isFetch (log m') = filter isFetch (log m)
    /\ (exists added, assistantContent m' = assistantContent m ++ added)
    /\ isStreaming (state m')
       = match c with
         | Return => false
         | Continue => isStreaming (state m)
         end.
Proof.
  rewrite dispatch_act.
  pose proof (act_cells assistantMessageId (classify platform line) m)
    as (A1 & A2 & A3 & _ & A5 & A6 & A7).
  eexists. eexists. split; [reflexivity|].
  repeat (split; [assumption|]).
  destruct (classify platform line); reflexivity.
Qed.

(** *** What every accepted submit ends as *)

Lemma submit_shape (s : State) :
  accepted s ->
  inputMessage (state (submit platform world s)) = []
  /\ isLoading (state (submit platform world s)) = false
  /\ filter isFetch (log (submit platform world s))
     = [Fetch (requestUrl world) (requestOf s)]
  /\ (map frame (messages (state (submit platform world s)))
      = map frame (messages s ++ [userMessageOf world s])
      \/ map frame (messages (state (submit platform world s)))
         = map frame (messages s ++ [userMessageOf world s; placeholder world])).
Proof.
  intros Hacc. rewrite (@submit_accepted platform world s Hacc).
  destruct (network world (requestUrl world) (requestOf s)) as [e|response];
    [repeat split; now left|].
  destruct (ok response); [|repeat split; now left].
  destruct (body response) as [reader|]; [|repeat split; now right].
  pose proof (actAll_cells (idAt world 3)
                (linesOf platform (new_TextDecoder platform) (chunks reader))
                (streaming world s)) as (A1 & A2 & _ & _ & A5 & A6 & _).
  destruct (actAll platform _ _ _) as [[|] m']; cbn [snd] in *.
  - destruct (ending reader); cbn [failed state inputMessage isLoading messages log];
      rewrite ?A1, ?A2, A5, A6; repeat split; now right.
  - rewrite A1, A2, A5, A6. repeat split; now right.
Qed.

(** X3.  However an accepted submit ends (success, refusal, network or
    stream failure, end of data), the input is cleared and the loading
    flag is lowered, so the typing indicator, rendered only while
    [isLoading && !isStreaming], is not shown in the state it leaves. *)
Theorem submit_settles (s : State) :
  accepted s ->
  inputMessage (state (submit platform world s)) = []
  /\ isLoading (state (submit platform world s)) = false
  /\ typingIndicator (render (state (submit platform world s))) = false.
Proof.
  intros Hacc. destruct (submit_shape Hacc) as (H1 & H2 & _).
  split; [exact H1|]. split; [exact H2|].
  cbn [render typingIndicator]. now rewrite H2.
Qed.

(** X4.  When [fetch] itself rejects (the request never gets a
    response), the exchange fails without creating an assistant Message:
    the transcript is the former one plus the user Message, nothing is
    read, the message of the thrown error (or [Error desconocido] for a
    thrown value that is not an [Error]) is recorded and the session
    state is [error]. *)
Theorem fetch_rejection (s : State) (e : exn) :
  accepted s ->
  network world (requestUrl world) (requestOf s) = inl e ->
  error (state (submit platform world s))
  = Some (match e with
          | Error message => message
          | Native k => native_message platform k
          | NonError => lit "Error desconocido"
          end)
  /\ messages (state (submit platform world s))
     = messages s ++ [userMessageOf world s]
  /\ log (submit platform world s)
     = [SetMessages (messages s ++ [userMessageOf world s]);
        Fetch (requestUrl world) (requestOf s)]
  /\ sessionState (state (submit platform world s)) = SessionState.error.
Proof.
  intros Hacc Hnet. rewrite (@submit_accepted platform world s Hacc), Hnet.
  repeat split.
Qed.

(** X5.  When a successful response has no body to read, the empty
    assistant placeholder has already been appended; it stays in the
    transcript with empty content, the error [No se pudo leer la
    respuesta del servidor] is recorded and the session state is
    [error]. *)
Theorem response_without_body (s : State) (response : Response) :
  accepted s ->
  network world (requestUrl world) (requestOf s) = inr response ->
  ok response = true ->
  body response = None ->
  messages (state (submit platform world s))
  = messages s ++ [userMessageOf world s; placeholder world]
  /\ Message.content (placeholder world) = []
  /\ error (state (submit platform world s))
     = Some (lit "No se pudo leer la respuesta del servidor")
  /\ sessionState (state (submit platform world s)) = SessionState.error.
Proof.
  intros Hacc Hnet Hok Hbody.
  rewrite (@submit_accepted platform world s Hacc), Hnet, Hok, Hbody.
  repeat split.
Qed.

(** X6.  When a read of the stream fails after some fragment lines, the
    fragments received are kept: the assistant Message holds their
    concatenation, the message of the read error is recorded, both flags
    are lowered and the session state is [error]. *)
Theorem read_failure_keeps_partial_reply (s : State) (response : Response)
    (reader : ReadableStream) (lines pieces : list jsstring) (e : exn) :
  accepted s ->
  network world (requestUrl world) (requestOf s) = inr response ->
  ok response = true ->
  body response = Some reader ->
  linesOf platform (new_TextDecoder platform) (chunks reader) = lines ->
  Fragments platform lines pieces ->
  ending reader = ReadError e ->
  (exists before,
     messages (state (submit platform world s))
     = before ++ [Message.mk (idAt world 3) (concat pieces) assistant
                             (Date_now world 5)]
     /\ length before = S (length (messages s)))
  /\ error (state (submit platform world s))
     = Some (caught_message platform e)
  /\ isStreaming (state (submit platform world s)) = false
  /\ sessionState (state (submit platform world s)) = SessionState.error.
Proof.
  intros Hacc Hnet Hok Hbody Hlines Hfrag Hend.
  rewrite (@submit_streaming platform world s response reader Hacc Hnet Hok Hbody).
  unfold consume.
  rewrite Hlines, (@actAll_fragments platform (idAt world 3) lines pieces
                     (streaming world s) Hfrag), Hend.
  cbn [endOfReads throw].
  split; [|repeat split].
  cbn [failed state messages]. apply streamed_placeholder.
Qed.

(** X7.  The transcript only grows: an accepted submit keeps every
    earlier message at its place with its id, role and timestamp, adds
    the user Message after them and at most the assistant placeholder
    after that; nothing is removed or reordered, whatever the stream
    holds. *)
Theorem transcript_only_grows (s : State) :
  accepted s ->
  exists tail,
    map frame (messages (state (submit platform world s)))
    = map frame (messages s) ++ frame (userMessageOf world s) :: tail
    /\ (tail = [] \/ tail = [frame (placeholder world)]).
Proof.
  intros Hacc. destruct (submit_shape Hacc) as (_ & _ & _ & [H|H]);
    rewrite H, map_app; [exists [] | exists [frame (placeholder world)]];
    split; auto.
Qed.

(** X9.  An accepted submit issues exactly one request, the [POST] to
    [<apiUrl>/stream] carrying the trimmed input and the history;
    nothing that arrives on the stream causes another one. *)
Theorem one_request_per_submit (s : State) :
  accepted s ->
  filter isFetch (log (submit platform world s))
  = [Fetch (apiUrl world ++ lit "/stream")
           (ChatRequest.mk (trim (inputMessage s))
                           (getConversationHistory (messages s)))].
Proof. intros Hacc. now destruct (submit_shape Hacc) as (_ & _ & H & _). Qed.

(** *** A fresh placeholder id *)

Lemma map_withContent_fresh (assistantMessageId content : jsstring)
    (before : list Message.t) :
  Forall (fun message => JS.eqb (Message.id message) assistantMessageId = false)
         before ->
  map (withContent assistantMessageId content) before = before.
Proof.
  induction 1 as [|msg rest Hmsg _ IH]; [reflexivity|].
  cbn [map]. rewrite IH. unfold withContent. now rewrite Hmsg.
Qed.

Lemma actAll_fresh (assistantMessageId : jsstring) (before : list Message.t)
    (r : Role) (t : N) (lines : list jsstring) (m : Machine) :
  Forall (fun message => JS.eqb (Message.id message) assistantMessageId = false)
         before ->
  messages (state m)
  = before ++ [Message.mk assistantMessageId (assistantContent m) r t] ->
  messages (state (snd (actAll platform assistantMessageId lines m)))
  = before
    ++ [Message.mk assistantMessageId
          (assistantContent (snd (actAll platform assistantMessageId lines m)))
          r t].
Proof.
  intros Hfresh. revert m.
  induction lines as [|line rest IH]; intros m Hm; [exact Hm|].
  cbn [actAll].
  destruct (classify platform line) as [|e|piece|]; cbn [act].
  - apply IH, Hm.
  - apply IH, Hm.
  - apply IH. cbn [appended state messages assistantContent].
    rewrite Hm, map_withContent_last, map_withContent_fresh by exact Hfresh.
    reflexivity.
  - exact Hm.
Qed.

(** X8.  Content updates go by id.  When the id drawn for the assistant
    placeholder differs from the id of every message already in the
    transcript (the user Message included), then, whatever the stream
    holds and however it ends, every earlier message is left exactly as
    it was and the transcript the exchange ends with is the former one,
    the user Message, and the assistant Message holding the buffer. *)
Theorem fresh_placeholder_is_the_only_update (s : State) (response : Response)
    (reader : ReadableStream) :
  accepted s ->
  network world (requestUrl world) (requestOf s) = inr response ->
  ok response = true ->
  body response = Some reader ->
  Forall (fun message => JS.eqb (Message.id message) (idAt world 3) = false)
         (messages s ++ [userMessageOf world s]) ->
  messages (state (submit platform world s))
  = messages s
    ++ [userMessageOf world s;
        Message.mk (idAt world 3) (assistantContent (submit platform world s))
                   assistant (Date_now world 5)].
Proof.
  intros Hacc Hnet Hok Hbody Hfresh.
  rewrite (@submit_streaming platform world s response reader Hacc Hnet Hok Hbody).
  unfold consume.
  pose proof (@actAll_fresh (idAt world 3) (messages s ++ [userMessageOf world s])
                assistant (Date_now world 5)
                (linesOf platform (new_TextDecoder platform) (chunks reader))
                (streaming world s) Hfresh) as H.
  assert (H0 : messages (state (streaming world s))
               = (messages s ++ [userMessageOf world s])
                 ++ [Message.mk (idAt world 3)
                                (assistantContent (streaming world s))
                                assistant (Date_now world 5)]).
  { cbn [streaming state messages assistantContent]. now rewrite <- app_assoc. }
  specialize (H H0). rewrite <- app_assoc in H. cbn [app] in H.
  destruct (actAll platform _ _ _) as [[|] m']; cbn [snd] in H; [|exact H].
  destruct (ending reader); exact H.
Qed.

(** *** The end of the stream *)

(** X10.  A payload whose [done] is truthy ends the exchange without
    its [chunk] being applied (the chunk is appended only when [done] is
    not set): on such a line, with no truthy [error], the loop body
    lowers [isStreaming] and returns, and the buffer and the transcript
    stay as they were, whatever the [chunk] member holds. *)
Theorem done_discards_its_chunk (assistantMessageId line : jsstring)
    (members : list (jsstring * json)) (m : Machine) :
  payload platform line = Some (JObj members) ->
  truthy platform (own members (lit "error")) = false ->
  truthy platform (own members (lit "done")) = true ->
  dispatch platform assistantMessageId line m = (Normal Return, finished m)
  /\ assistantContent (finished m) = assistantContent m
  /\ messages (state (finished m)) = messages (state m)
  /\ isStreaming (state (finished m)) = false.
Proof.
  intros Hp Herr Hdone. split; [|repeat split].
  rewrite dispatch_act.
  assert (E : classify platform line = Done).
  { unfold payload in Hp. unfold classify.
    destruct (startsWith (lit "data: ") line); [|discriminate Hp].
    rewrite Hp. cbn [Get]. rewrite Herr, Hdone. cbn [negb].
    now rewrite andb_false_r. }
  now rewrite E.
Qed.

(** X16.  A payload with nothing to act on is passed over in silence:
    when the remainder of a [data: ] line parses to a number, a string, a
    boolean or an array, or to an object whose [error], [chunk] and
    [done] are all absent or falsy (an empty object, an empty chunk),
    the loop body goes on to the next line and changes nothing, not even
    the log. *)
Theorem silent_payload (assistantMessageId line : jsstring) (data : json)
    (m : Machine) :
  payload platform line = Some data ->
  match data with
  | JNull => False
  | JObj members =>
      truthy platform (own members (lit "error")) = false
      /\ truthy platform (own members (lit "chunk")) = false
      /\ truthy platform (own members (lit "done")) = false
  | _ => True
  end ->
  dispatch platform assistantMessageId line m = (Normal Continue, m).
Proof.
  intros Hp Hdata. rewrite dispatch_act.
  assert (E : classify platform line = Ignore).
  { unfold payload in Hp. unfold classify.
    destruct (startsWith (lit "data: ") line); [|discriminate Hp].
    rewrite Hp.
    destruct data as [|b|n|str|items|members]; try reflexivity;
      [contradiction|].
    destruct Hdata as (Herr & Hchunk & Hdone).
    cbn [Get]. now rewrite Herr, Hchunk, Hdone. }
  now rewrite E.
Qed.

(** *** Ids *)

Lemma digits_inj (u v : Decimal.uint) : digits u = digits v -> u = v.
Proof.
  revert v. induction u as [|u IH|u IH|u IH|u IH|u IH|u IH|u IH|u IH|u IH|u IH];
    intros [|v|v|v|v|v|v|v|v|v|v] H; cbn [digits] in H;
    try discriminate H; try reflexivity;
    injection H as H; f_equal; apply IH, H.
Qed.

Lemma integer_toString_inj (a b : N) :
  integer_toString a = integer_toString b -> a = b.
Proof.
  unfold integer_toString. intros H.
  apply Unsigned.to_uint_inj, digits_inj, H.
Qed.

Lemma app_same_length (A : Type) (a b c d : list A) :
  length a = length b -> a ++ c = b ++ d -> a = b.
Proof.
  revert b. induction a as [|x a IH]; intros [|y b] Hlen H;
    try discriminate Hlen; [reflexivity|].
  injection Hlen as Hlen. injection H as Hx H. subst y. f_equal.
  apply IH; assumption.
Qed.

(** X11.  Two ids drawn by [generateId] at different clock values are
    different whenever the two clock values print with the same number of
    digits (every millisecond timestamp from 2001 to 2286 has 13),
    whatever the random parts are. *)
Theorem generateId_distinct (m1 m2 : Machine) :
  length (integer_toString (Date_now world (tick m1)))
  = length (integer_toString (Date_now world (tick m2))) ->
  Date_now world (tick m1) <> Date_now world (tick m2) ->
  fst (generateId world m1) <> fst (generateId world m2).
Proof.
  intros Hlen Hne H. apply Hne.
  cbv beta iota delta [generateId Date_now_ Math_random_toString36_ bind draw
    ret fst tick] in H.
  injection H as H.
  apply integer_toString_inj. exact (app_same_length _ _ _ _ Hlen H).
Qed.

(** *** The view and the other handlers *)

Lemma eqb_eq (a b : jsstring) : JS.eqb a b = true -> a = b.
Proof.
  revert b. induction a as [|x a IH]; intros [|y b] H; try discriminate H;
    [reflexivity|].
  cbn [JS.eqb] in H. apply andb_true_iff in H as [Hx H].
  apply N.eqb_eq in Hx. subst y. f_equal. apply IH, H.
Qed.

Lemma enabled_accepted (s : State) :
  sendDisabled (render s) = false -> accepted s.
Proof.
  cbn [render sendDisabled]. intros H.
  apply orb_false_iff in H as [H Hs]. apply orb_false_iff in H as [Hi Hl].
  repeat split; try assumption.
  intros E. rewrite E in Hi. discriminate Hi.
Qed.

Lemma disabled_rejects (s : State) (m : Machine) :
  sendDisabled (render s) = true ->
  handleSendMessage platform world s m = (Normal tt, m).
Proof.
  cbn [render sendDisabled]. intros H. unfold handleSendMessage.
  now rewrite H.
Qed.

(** X12.  The send button is disabled in exactly the states in which
    [handleSendMessage] does nothing: its [disabled] attribute is set if
    and only if the handler, run from that render, returns the machine
    untouched. *)
Theorem send_button_matches_guard (s : State) :
  sendDisabled (render s) = true
  <-> (forall m, handleSendMessage platform world s m = (Normal tt, m)).
Proof.
  split.
  - intros H m. now apply disabled_rejects.
  - intros H. destruct (sendDisabled (render s)) eqn:E; [reflexivity|].
    destruct (@submit_log_head platform world s (enabled_accepted s E))
      as [later Hlog].
    unfold submit in Hlog. rewrite H in Hlog. discriminate Hlog.
Qed.

(** X13.  A key press does something only for Enter without Shift: any
    other key, and Shift+Enter, leaves the component untouched and the
    default action (the line break) in place.  Enter without Shift
    always prevents the default action and completes normally; it runs
    the submit, which changes nothing when the send button is
    disabled. *)
Theorem key_press (closure : State) (e : KeyboardEvent) (m : Machine) :
  handleKeyPress platform world closure e m
  = if JS.eqb (key e) (lit "Enter") && negb (shiftKey e)
    then (Normal true,
          if sendDisabled (render closure) then m
          else snd (handleSendMessage platform world closure m))
    else (Normal false, m).
Proof.
  unfold handleKeyPress.
  destruct (JS.eqb (key e) (lit "Enter") && negb (shiftKey e)); [|reflexivity].
  unfold bind.
  destruct (sendDisabled (render closure)) eqn:E.
  - now rewrite (disabled_rejects closure m E).
  - pose proof (handleSendMessage_normal closure m) as H.
    destruct (handleSendMessage platform world closure m) as [c m'].
    cbn [fst] in H. now rewrite H.
Qed.

End Further.

Section Sequel.

Variable platform : Platform.
Variable world : World.

(** *** One exchange after another *)

Lemma history_last (before : list Message.t) (message : Message.t) :
  getConversationHistory (before ++ [message])
  = map project (skipn (length before - 5) before) ++ [project message].
Proof.
  unfold getConversationHistory, recentHistory.
  rewrite (slice_last (limit := 6)) by lia.
  rewrite length_app. cbn [length].
  replace (length before + 1 - Z.to_nat 6) with (length before - 5) by lia.
  rewrite skipn_app, map_app.
  replace (length before - 5 - length before) with 0 by lia.
  reflexivity.
Qed.

Lemma typed_cells (text : jsstring) (s : State) :
  messages (typed text s) = messages s
  /\ inputMessage (typed text s) = text
  /\ isLoading (typed text s) = isLoading s
  /\ isStreaming (typed text s) = isStreaming s.
Proof. repeat split. Qed.

(** X14.  The reply of one exchange is part of the next request.  After
    an exchange that streamed fragments up to a [done] line, typing a new
    question and submitting it is accepted, and the one request it issues
    carries the trimmed question as [message] and a history that ends
    with the assistant reply of the first exchange, preceded by at most
    five earlier messages. *)
Theorem follow_up_carries_reply (world' : World) (s : State)
    (response : Response) (reader : ReadableStream) (pre : list jsstring)
    (closing : jsstring) (post pieces : list jsstring) (text : jsstring) :
  accepted s ->
  network world (requestUrl world) (requestOf s) = inr response ->
  ok response = true ->
  body response = Some reader ->
  linesOf platform (new_TextDecoder platform) (chunks reader)
  = pre ++ closing :: post ->
  Fragments platform pre pieces ->
  done_line platform closing ->
  trim text <> [] ->
  exists front,
    filter isFetch
      (log (submit platform world' (typed text (state (submit platform world s)))))
    = [Fetch (apiUrl world' ++ lit "/stream")
             (ChatRequest.mk (trim text)
                (front ++ [ConversationHistory.mk assistant (concat pieces)]))]
    /\ length front <= 5.
Proof.
  intros Hacc Hnet Hok Hbody Hlines Hpre Hdone Htext.
  set (s1 := state (submit platform world s)).
  assert (Hs1 : (exists before,
                   messages s1
                   = before ++ [Message.mk (idAt world 3) (concat pieces)
                                           assistant (Date_now world 5)])
                /\ isLoading s1 = false /\ isStreaming s1 = false).
  { unfold s1.
    rewrite (@submit_streaming platform world s response reader Hacc Hnet Hok Hbody).
    unfold consume.
    rewrite Hlines, (@actAll_fragments_done platform (idAt world 3) pre pieces
                       closing post (streaming world s) Hpre Hdone).
    destruct (streamed_cells (idAt world 3) pieces (streaming world s))
      as (_ & Hl & _ & _ & _).
    destruct (@streamed_placeholder world pieces s) as (before & Hb & _).
    cbn [finished state messages isLoading isStreaming].
    split; [exists before; exact Hb|]. split; [now rewrite Hl | reflexivity]. }
  destruct Hs1 as ((before & Hb) & Hl & Hs).
  assert (Hacc' : accepted (typed text s1)) by (repeat split; assumption).
  destruct (@submit_shape platform world' (typed text s1) Hacc') as (_ & _ & Hfetch & _).
  exists (map project (skipn (length before - 5) before)).
  split.
  - rewrite Hfetch. unfold requestUrl, requestOf.
    change (messages (typed text s1)) with (messages s1).
    change (inputMessage (typed text s1)) with text.
    now rewrite Hb, history_last.
  - rewrite length_map, length_skipn. lia.
Qed.

(** X15.  A question whose request was refused stays in the transcript.
    After a response with a status outside 200-299, typing a question
    and submitting it is accepted, and the one request it issues carries
    a history that ends with the refused question as a user entry; the
    transcript then holds two user Messages more than before the first
    submit. *)
Theorem retry_carries_failed_question (world' : World) (s : State)
    (response : Response) (text : jsstring) :
  accepted s ->
  network world (requestUrl world) (requestOf s) = inr response ->
  ok response = false ->
  trim text <> [] ->
  (exists front,
     filter isFetch
       (log (submit platform world' (typed text (state (submit platform world s)))))
     = [Fetch (apiUrl world' ++ lit "/stream")
              (ChatRequest.mk (trim text)
                 (front ++ [ConversationHistory.mk user (trim (inputMessage s))]))]
     /\ length front <= 5)
  /\ countRole user
       (messages (state (submit platform world'
                           (typed text (state (submit platform world s))))))
     = S (S (countRole user (messages s))).
Proof.
  intros Hacc Hnet Hok Htext.
  set (s1 := state (submit platform world s)).
  assert (Hs1 : messages s1 = messages s ++ [userMessageOf world s]
                /\ isLoading s1 = false /\ isStreaming s1 = false).
  { unfold s1. rewrite (@submit_accepted platform world s Hacc), Hnet, Hok.
    repeat split. }
  destruct Hs1 as (Hb & Hl & Hs).
  assert (Hacc' : accepted (typed text s1)) by (repeat split; assumption).
  split.
  - destruct (@submit_shape platform world' (typed text s1) Hacc') as (_ & _ & Hfetch & _).
    exists (map project (skipn (length (messages s) - 5) (messages s))).
    split.
    + rewrite Hfetch. unfold requestUrl, requestOf.
      change (messages (typed text s1)) with (messages s1).
      change (inputMessage (typed text s1)) with text.
      now rewrite Hb, history_last.
    + rewrite length_map, length_skipn. lia.
  - destruct (@submit_roles platform world' (typed text s1) Hacc')
      as (tail & Hroles & Htail).
    change (messages (typed text s1)) with (messages s1) in Hroles.
    assert (E : countRole user
                  (messages (state (submit platform world' (typed text s1))))
                = countRole user
                    (messages s1
                     ++ Message.mk [] [] user 0
                        :: map (fun r => Message.mk [] [] r 0) tail)).
    { apply countRole_roles. rewrite Hroles, map_app. cbn [map Message.role].
      rewrite map_map. cbn [Message.role]. now rewrite map_id. }
    rewrite E, Hb, !countRole_app.
    destruct Htail as [-> | ->]; cbn; lia.
Qed.

End Sequel.

(* ================================================================= *)
(** ** The further properties on the examples *)

Module FurtherExamples.

Import Example.

Lemma submit_settles_witness :
  inputMessage (state (run (reply hello EndOfData) (asking "hi"))) = []
  /\ isLoading (state (run (reply hello EndOfData) (asking "hi"))) = false
  /\ typingIndicator (render (state (run (reply hello EndOfData) (asking "hi"))))
     = false.
Proof.
  apply (@submit_settles Host.platform (world (reply hello EndOfData))
           (asking "hi")).
  exact Examples.hi_accepted.
Defined.

(** A request that never gets a response. *)
Lemma fetch_rejection_witness :
  error (state (run Scenario.failure (asking "hi")))
  = Some (lit "Failed to fetch")
  /\ messages (state (run Scenario.failure (asking "hi")))
     = messages (asking "hi")
       ++ [userMessageOf (world Scenario.failure) (asking "hi")]
  /\ log (run Scenario.failure (asking "hi"))
     = [SetMessages (messages (asking "hi")
                     ++ [userMessageOf (world Scenario.failure) (asking "hi")]);
        Fetch (requestUrl (world Scenario.failure)) (requestOf (asking "hi"))]
  /\ sessionState (state (run Scenario.failure (asking "hi")))
     = SessionState.error.
Proof.
  apply (@fetch_rejection Host.platform (world Scenario.failure) (asking "hi")
           (Error (lit "Failed to fetch"))).
  - exact Examples.hi_accepted.
  - reflexivity.
Defined.

(** A 204 response. *)
Lemma response_without_body_witness :
  messages (state (run Scenario.noBody (asking "hi")))
  = messages (asking "hi")
    ++ [userMessageOf (world Scenario.noBody) (asking "hi");
        placeholder (world Scenario.noBody)]
  /\ Message.content (placeholder (world Scenario.noBody)) = []
  /\ error (state (run Scenario.noBody (asking "hi")))
     = Some (lit "No se pudo leer la respuesta del servidor")
  /\ sessionState (state (run Scenario.noBody (asking "hi")))
     = SessionState.error.
Proof.
  apply (@response_without_body Host.platform (world Scenario.noBody)
           (asking "hi")
           {| status := 204; statusText := lit "No Content"; body := None |}).
  - exact Examples.hi_accepted.
  - reflexivity.
  - reflexivity.
  - reflexivity.
Defined.

(** The fragment [partial], then a read that fails. *)
Lemma read_failure_keeps_partial_reply_witness :
  (exists before,
     messages (state (run Scenario.broken (asking "hi")))
     = before ++ [Message.mk (idAt (world Scenario.broken) 3) (lit "partial")
                             assistant (Date_now (world Scenario.broken) 5)]
     /\ length before = S (length (messages (asking "hi"))))
  /\ error (state (run Scenario.broken (asking "hi")))
     = Some (lit "network error")
  /\ isStreaming (state (run Scenario.broken (asking "hi"))) = false
  /\ sessionState (state (run Scenario.broken (asking "hi")))
     = SessionState.error.
Proof.
  apply (@read_failure_keeps_partial_reply Host.platform (world Scenario.broken)
           (asking "hi")
           {| status := 200; statusText := lit "OK";
              body := Some {| chunks := partial;
                              ending := ReadError (Error (lit "network error")) |} |}
           {| chunks := partial;
              ending := ReadError (Error (lit "network error")) |}
           [wire "data: {'chunk':'partial'}"; []]
           [lit "partial"]
           (Error (lit "network error"))).
  - exact Examples.hi_accepted.
  - reflexivity.
  - reflexivity.
  - reflexivity.
  - evaluate.
  - apply Fragments_piece; [line|]. apply Fragments_skip; [reflexivity|].
    apply Fragments_nil.
  - reflexivity.
Defined.

Lemma transcript_only_grows_witness :
  exists tail,
    map frame (messages (state (run (reply hello EndOfData) (asking "hi"))))
    = map frame (messages (asking "hi"))
      ++ frame (userMessageOf (world (reply hello EndOfData)) (asking "hi"))
         :: tail
    /\ (tail = []
        \/ tail = [frame (placeholder (world (reply hello EndOfData)))]).
Proof.
  apply (@transcript_only_grows Host.platform (world (reply hello EndOfData))
           (asking "hi")).
  exact Examples.hi_accepted.
Defined.

Lemma one_request_per_submit_witness :
  filter isFetch (log (run (reply hello EndOfData) (asking "hi")))
  = [Fetch (apiUrl (world (reply hello EndOfData)) ++ lit "/stream")
           (ChatRequest.mk (trim (inputMessage (asking "hi")))
                           (getConversationHistory (messages (asking "hi"))))].
Proof.
  apply (@one_request_per_submit Host.platform (world (reply hello EndOfData))
           (asking "hi")).
  exact Examples.hi_accepted.
Defined.

(** In the example world the three ids differ (the clock advances), so
    the stream [Hel], [lo], [done] leaves the greeting and the question
    as they were. *)
Lemma fresh_placeholder_is_the_only_update_witness :
  messages (state (run (reply hello EndOfData) (asking "hi")))
  = messages (asking "hi")
    ++ [userMessageOf (world (reply hello EndOfData)) (asking "hi");
        Message.mk (idAt (world (reply hello EndOfData)) 3)
                   (assistantContent (run (reply hello EndOfData) (asking "hi")))
                   assistant (Date_now (world (reply hello EndOfData)) 5)].
Proof.
  apply (@fresh_placeholder_is_the_only_update Host.platform
           (world (reply hello EndOfData)) (asking "hi")
           {| status := 200; statusText := lit "OK";
              body := Some {| chunks := hello; ending := EndOfData |} |}
           {| chunks := hello; ending := EndOfData |}).
  - exact Examples.hi_accepted.
  - reflexivity.
  - reflexivity.
  - reflexivity.
  - repeat constructor; evaluate.
Defined.

(** A last fragment sent together with [done] is lost. *)
Lemma done_discards_its_chunk_witness :
  dispatch Host.platform (lit "a") Scenario.tailWithDone
           (streaming (world refusal) (asking "hi"))
  = (Normal Return, finished (streaming (world refusal) (asking "hi")))
  /\ assistantContent (finished (streaming (world refusal) (asking "hi")))
     = assistantContent (streaming (world refusal) (asking "hi"))
  /\ messages (state (finished (streaming (world refusal) (asking "hi"))))
     = messages (state (streaming (world refusal) (asking "hi")))
  /\ isStreaming (state (finished (streaming (world refusal) (asking "hi"))))
     = false.
Proof.
  apply (@done_discards_its_chunk Host.platform (lit "a") Scenario.tailWithDone
           [(lit "chunk", JStr (lit "tail")); (lit "done", JBool true)]
           (streaming (world refusal) (asking "hi"))).
  - evaluate.
  - evaluate.
  - evaluate.
Defined.

Lemma generateId_distinct_witness :
  fst (generateId (world refusal) (start (asking "hi")))
  <> fst (generateId (world refusal) (requested (world refusal) (asking "hi"))).
Proof.
  apply (@generateId_distinct (world refusal) (start (asking "hi"))
           (requested (world refusal) (asking "hi"))).
  - evaluate.
  - vm_compute. discriminate.
Defined.

(** After [Hello], the question [and?] is sent with a history that ends
    with the reply [Hello]. *)
Lemma follow_up_carries_reply_witness :
  exists front,
    filter isFetch
      (log (submit Host.platform (world refusal)
              (typed (lit "and?")
                     (state (run (reply hello EndOfData) (asking "hi"))))))
    = [Fetch (apiUrl (world refusal) ++ lit "/stream")
             (ChatRequest.mk (trim (lit "and?"))
                (front ++ [ConversationHistory.mk assistant
                             (concat [lit "Hel"; lit "lo"])]))]
    /\ length front <= 5.
Proof.
  apply (@follow_up_carries_reply Host.platform (world (reply hello EndOfData))
           (world refusal) (asking "hi")
           {| status := 200; statusText := lit "OK";
              body := Some {| chunks := hello; ending := EndOfData |} |}
           {| chunks := hello; ending := EndOfData |}
           [wire "data: {'chunk':'Hel'}"; []; wire "data: {'chunk':'lo'}"; []]
           (wire "data: {'done':true}")
           [[]]
           [lit "Hel"; lit "lo"]
           (lit "and?")).
  - exact Examples.hi_accepted.
  - reflexivity.
  - reflexivity.
  - reflexivity.
  - evaluate.
  - exact Examples.hello_fragments.
  - line.
  - vm_compute. discriminate.
Defined.

(** The refused question [hi], asked again. *)
Lemma retry_carries_failed_question_witness :
  (exists front,
     filter isFetch
       (log (submit Host.platform (world refusal)
               (typed (lit "hi") (state (run refusal (asking "hi"))))))
     = [Fetch (apiUrl (world refusal) ++ lit "/stream")
              (ChatRequest.mk (trim (lit "hi"))
                 (front ++ [ConversationHistory.mk user
                              (trim (inputMessage (asking "hi")))]))]
     /\ length front <= 5)
  /\ countRole user
       (messages (state (submit Host.platform (world refusal)
                           (typed (lit "hi") (state (run refusal (asking "hi")))))))
     = S (S (countRole user (messages (asking "hi")))).
Proof.
  apply (@retry_carries_failed_question Host.platform (world refusal)
           (world refusal) (asking "hi")
           {| status := 500; statusText := lit "Internal Server Error";
              body := None |}
           (lit "hi")).
  - exact Examples.hi_accepted.
  - reflexivity.
  - reflexivity.
  - vm_compute. discriminate.
Defined.

(** A line carrying an empty object. *)
Lemma silent_payload_witness :
  dispatch Host.platform (lit "a") (wire "data: {}")
           (streaming (world refusal) (asking "hi"))
  = (Normal Continue, streaming (world refusal) (asking "hi")).
Proof.
  apply (@silent_payload Host.platform (lit "a") (wire "data: {}") (JObj [])
           (streaming (world refusal) (asking "hi"))).
  - evaluate.
  - repeat split.
Defined.

End FurtherExamples.

(* ================================================================= *)
(** ** A fragment line cut between two reads *)

(** *** What the host's parser reads over *)

Module HostFacts.
Import Host.
Local Open Scope N_scope.

Lemma Good_app (a b : jsstring) : Good a -> Good b -> Good (a ++ b).
Proof.
  intros [Ha | (P & Q & -> & HP & HQ)] Hb.
  - destruct Hb as [Hb | (P & Q & -> & HP & HQ)].
    + left. apply Forall_app. split; assumption.
    + right. exists (a ++ P), Q. rewrite <- app_assoc.
      split; [reflexivity|]. split; [|exact HQ].
      apply Forall_app. split; assumption.
  - right. exists P, (Q ++ b). rewrite <- app_assoc. cbn [app].
    split; [reflexivity|]. split; [exact HP|]. apply in_or_app. now left.
Qed.

Lemma Consumes_refl (s : jsstring) : Consumes s s.
Proof. exists []. split; [reflexivity | left; constructor]. Qed.

Lemma Consumes_trans (s r1 r2 : jsstring) :
  Consumes s r1 -> Consumes r1 r2 -> Consumes s r2.
Proof.
  intros (c1 & -> & H1) (c2 & -> & H2). exists (c1 ++ c2).
  rewrite <- app_assoc. split; [reflexivity | now apply Good_app].
Qed.

Lemma Consumes_char (c : N) (s : jsstring) :
  c <> 34 -> c <> 92 -> Consumes (c :: s) s.
Proof.
  intros H1 H2. exists [c]. split; [reflexivity|]. left.
  constructor; [split; assumption | constructor].
Qed.

Lemma ws_cases (c : N) :
  isJsonWhiteSpace c = true -> c = 9 \/ c = 10 \/ c = 13 \/ c = 32.
Proof.
  unfold isJsonWhiteSpace. intros H.
  repeat (apply orb_true_iff in H as [H|H]); apply N.eqb_eq in H; auto.
Qed.

Lemma Consumes_ws (s : jsstring) : Consumes s (skipWhiteSpace s).
Proof.
  induction s as [|c s IH]; [apply Consumes_refl|].
  cbn [skipWhiteSpace]. destruct (isJsonWhiteSpace c) eqn:E;
    [|apply Consumes_refl].
  apply Consumes_trans with s; [|exact IH].
  apply Consumes_char; destruct (ws_cases c E) as [-> | [-> | [-> | ->]]]; discriminate.
Qed.

Lemma length_ind (P : jsstring -> Prop) :
  (forall s, (forall t, (length t < length s)%nat -> P t) -> P s) ->
  forall s, P s.
Proof.
  intros H s. remember (length s) as n eqn:E. revert s E.
  induction n as [n IH] using lt_wf_ind. intros s ->.
  apply H. intros t Ht. exact (IH _ Ht t eq_refl).
Qed.

Lemma push_some (c : N) (r : option (jsstring * jsstring)) (v rest : jsstring) :
  push c r = Some (v, rest) ->
  exists v', r = Some (v', rest) /\ v = c :: v'.
Proof.
  destruct r as [[v' rest']|]; [|discriminate]. cbn [push].
  intros H. injection H as <- <-. eauto.
Qed.

(** A string body holds its closing quotation mark. *)
Lemma stringBody_closing (s v rest : jsstring) :
  stringBody s = Some (v, rest) -> exists k, s = k ++ 34 :: rest.
Proof.
  revert v rest. induction s as [s IH] using length_ind. intros v rest H.
  destruct s as [|c s1]; [discriminate H|]. cbn [stringBody] in H.
  destruct (c =? 34) eqn:Ec.
  - apply N.eqb_eq in Ec. subst c. injection H as <- <-. now exists [].
  - destruct (c =? 92) eqn:Eb.
    + destruct s1 as [|e s2]; [discriminate H|].
      destruct (e =? 117) eqn:Eu.
      * destruct s2 as [|h1 [|h2 [|h3 [|h4 s3]]]]; try discriminate H.
        destruct (hex4 h1 h2 h3 h4); [|discriminate H].
        apply push_some in H as (v' & H & _).
        apply IH in H as [k ->]; [|cbn; lia].
        now exists (c :: e :: h1 :: h2 :: h3 :: h4 :: k).
      * destruct (escape e); [|discriminate H].
        apply push_some in H as (v' & H & _).
        apply IH in H as [k ->]; [|cbn; lia].
        now exists (c :: e :: k).
    + destruct (c <? 32); [discriminate H|].
      apply push_some in H as (v' & H & _).
      apply IH in H as [k ->]; [|cbn; lia].
      now exists (c :: k).
Qed.

Lemma Consumes_string (s1 v rest : jsstring) :
  stringBody s1 = Some (v, rest) -> Consumes (34 :: s1) rest.
Proof.
  intros H. apply stringBody_closing in H as [k ->].
  exists (34 :: k ++ [34]). split.
  - cbn [app]. now rewrite <- app_assoc.
  - right. exists [], (k ++ [34]). split; [reflexivity|].
    split; [constructor|]. apply in_or_app. right. now left.
Qed.

Lemma digit_bare (c : N) : isDigit c = true -> c <> 34 /\ c <> 92.
Proof.
  unfold isDigit. intros H. apply andb_true_iff in H as [H1 H2].
  apply N.leb_le in H1, H2. lia.
Qed.

Lemma Consumes_digitRun (acc : N) (k : nat) (s : jsstring) :
  Consumes s (snd (digitRun acc k s)).
Proof.
  revert acc k. induction s as [|c s IH]; intros acc k; [apply Consumes_refl|].
  cbn [digitRun]. destruct (isDigit c) eqn:E; [|apply Consumes_refl].
  apply Consumes_trans with s; [|apply IH].
  destruct (digit_bare c E). now apply Consumes_char.
Qed.

Lemma Consumes_exponentPart (s : jsstring) (e : Z) (rest : jsstring) :
  exponentPart s = Some (e, rest) -> Consumes s rest.
Proof.
  unfold exponentPart. destruct s as [|c s1].
  - intros H. injection H as _ <-. apply Consumes_refl.
  - destruct ((c =? 101) || (c =? 69)) eqn:Ec.
    + assert (Hc : c <> 34 /\ c <> 92).
      { apply orb_true_iff in Ec as [Ec|Ec]; apply N.eqb_eq in Ec; subst c;
          split; discriminate. }
      destruct Hc as [Hc1 Hc2].
      assert (Hsign : forall (sign : bool) (s2 : jsstring),
                (let '(sg, t) := (sign, s2) in
                 match digitRun 0 0 t with
                 | (_, O, _) => None
                 | (e0, _, rest0) =>
                     Some (if sg then (- Z.of_N e0)%Z else Z.of_N e0, rest0)
                 end) = Some (e, rest) -> Consumes s2 rest).
      { intros sign s2 H.
        pose proof (Consumes_digitRun 0 0 s2) as Hd.
        destruct (digitRun 0 0 s2) as [[e0 k] rest0]. cbn [snd] in Hd.
        destruct k; [discriminate H|]. injection H as _ <-. exact Hd. }
      intros H. apply Consumes_trans with s1; [now apply Consumes_char|].
      destruct s1 as [|d s2]; [exact (Hsign false [] H)|].
      destruct (d =? 45) eqn:Ed.
      * apply N.eqb_eq in Ed. subst d.
        apply Consumes_trans with s2; [apply Consumes_char; discriminate|].
        exact (Hsign true s2 H).
      * destruct (d =? 43) eqn:Ep.
        -- apply N.eqb_eq in Ep. subst d.
           apply Consumes_trans with s2; [apply Consumes_char; discriminate|].
           exact (Hsign false s2 H).
        -- exact (Hsign false (d :: s2) H).
    + intros H. injection H as _ <-. apply Consumes_refl.
Qed.

Lemma Consumes_fractionPart (int : N) (s : jsstring) (m : N) (sh : Z)
    (rest : jsstring) :
  fractionPart int s = Some (m, sh, rest) -> Consumes s rest.
Proof.
  unfold fractionPart. destruct s as [|c s1].
  - intros H. injection H as _ _ <-. apply Consumes_refl.
  - destruct (c =? 46) eqn:Ec.
    + apply N.eqb_eq in Ec. subst c. intros H.
      apply Consumes_trans with s1; [apply Consumes_char; discriminate|].
      pose proof (Consumes_digitRun int 0 s1) as Hd.
      destruct (digitRun int 0 s1) as [[m0 k] rest0]. cbn [snd] in Hd.
      destruct k; [discriminate H|]. injection H as _ _ <-. exact Hd.
    + intros H. injection H as _ _ <-. apply Consumes_refl.
Qed.

Lemma Consumes_numberLiteral (s : jsstring) (n : number) (rest : jsstring) :
  numberLiteral s = Some (n, rest) -> Consumes s rest.
Proof.
  unfold numberLiteral.
  assert (Hbody : forall neg s1,
            match
              match s1 with
              | c :: s2 =>
                  if c =? 48 then Some (0, s2)
                  else if isDigit c
                       then let '(v, _, rest0) := digitRun 0 0 s1 in Some (v, rest0)
                       else None
              | [] => None
              end
            with
            | None => None
            | Some (i, s2) =>
                match fractionPart i s2 with
                | None => None
                | Some (m, shift, s3) =>
                    match exponentPart s3 with
                    | None => None
                    | Some (e, s4) =>
                        Some ({| negative := neg; mantissa := m;
                                 exponent := (e + shift)%Z |}, s4)
                    end
                end
            end = Some (n, rest) -> Consumes s1 rest).
  { intros neg s1 H.
    destruct s1 as [|c s2]; [discriminate H|].
    assert (Hint : forall i t,
              (if c =? 48 then Some (0, s2)
               else if isDigit c
                    then let '(v, _, rest0) := digitRun 0 0 (c :: s2) in
                         Some (v, rest0)
                    else None) = Some (i, t) -> Consumes (c :: s2) t).
    { intros i t Hi. destruct (c =? 48) eqn:E0.
      - apply N.eqb_eq in E0. subst c. injection Hi as _ <-.
        apply Consumes_char; discriminate.
      - destruct (isDigit c) eqn:Ed; [|discriminate Hi].
        pose proof (Consumes_digitRun 0 0 (c :: s2)) as Hd.
        destruct (digitRun 0 0 (c :: s2)) as [[v0 k] rest0]. cbn [snd] in Hd.
        injection Hi as _ <-. exact Hd. }
    destruct (if c =? 48 then Some (0, s2)
              else if isDigit c
                   then let '(v, _, rest0) := digitRun 0 0 (c :: s2) in
                        Some (v, rest0)
                   else None) as [[i t]|] eqn:Ei; [|discriminate H].
    specialize (Hint i t eq_refl).
    destruct (fractionPart i t) as [[[m sh] s3]|] eqn:Ef; [|discriminate H].
    destruct (exponentPart s3) as [[e s4]|] eqn:Ee; [|discriminate H].
    injection H as _ <-.
    eapply Consumes_trans; [exact Hint|].
    eapply Consumes_trans; [exact (Consumes_fractionPart _ _ Ef)|].
    exact (Consumes_exponentPart _ Ee). }
  destruct s as [|c s']; [intros H; exact (Hbody false [] H)|].
  destruct (c =? 45) eqn:Em.
  - apply N.eqb_eq in Em. subst c. intros H.
    apply Consumes_trans with s'; [apply Consumes_char; discriminate|].
    exact (Hbody true s' H).
  - intros H. exact (Hbody false (c :: s') H).
Qed.

Lemma startsWith_split (p s : jsstring) :
  startsWith p s = true -> s = p ++ skipn (length p) s.
Proof.
  revert s. induction p as [|a p IH]; intros s H; [reflexivity|].
  destruct s as [|b s]; [discriminate H|]. cbn [startsWith] in H.
  apply andb_true_iff in H as [Hab H]. apply N.eqb_eq in Hab. subst b.
  cbn [length skipn app]. f_equal. apply IH, H.
Qed.

Lemma Consumes_keyword (p s : jsstring) :
  bare p -> startsWith p s = true -> Consumes s (skipn (length p) s).
Proof.
  intros Hp H. exists p. split; [apply startsWith_split, H | now left].
Qed.

Lemma Consumes_skip (s : jsstring) (c : N) (s1 : jsstring) :
  skipWhiteSpace s = c :: s1 -> c <> 34 -> c <> 92 -> Consumes s s1.
Proof.
  intros E H1 H2. apply Consumes_trans with (c :: s1).
  - rewrite <- E. apply Consumes_ws.
  - now apply Consumes_char.
Qed.

Lemma Consumes_skip_quote (s s1 v rest : jsstring) :
  skipWhiteSpace s = 34 :: s1 -> stringBody s1 = Some (v, rest) ->
  Consumes s rest.
Proof.
  intros E H. apply Consumes_trans with (34 :: s1).
  - rewrite <- E. apply Consumes_ws.
  - exact (Consumes_string _ H).
Qed.


(** What a successful parse consumed is either free of quotation marks
    and reverse solidi, or holds a quotation mark with none of them
    before it and another quotation mark after it. *)
Lemma parse_consumes (fuel : nat) :
  (forall s v rest, parseValue fuel s = Some (v, rest) -> Consumes s rest)
  /\ (forall s vs rest, parseElements fuel s = Some (vs, rest) -> Consumes s rest)
  /\ (forall s ms rest, parseMembers fuel s = Some (ms, rest) -> Consumes s rest).
Proof.
  induction fuel as [|fuel (IHv & IHe & IHm)];
    [repeat split; intros; discriminate|].
  repeat split.
  - intros s v rest H. cbn [parseValue] in H.
    destruct (skipWhiteSpace s) as [|c s1] eqn:Es; [discriminate H|].
    destruct (c =? 123) eqn:E1.
    { apply N.eqb_eq in E1. subst c.
      apply Consumes_trans with s1;
        [apply (Consumes_skip _ Es); discriminate|].
      destruct (skipWhiteSpace s1) as [|d s2] eqn:Es1; [discriminate H|].
      destruct (d =? 125) eqn:E2.
      - apply N.eqb_eq in E2. subst d. injection H as _ <-.
        apply (Consumes_skip _ Es1); discriminate.
      - destruct (parseMembers fuel s1) as [[ms r]|] eqn:Em; [|discriminate H].
        injection H as _ <-. exact (IHm _ _ _ Em). }
    destruct (c =? 91) eqn:E2.
    { apply N.eqb_eq in E2. subst c.
      apply Consumes_trans with s1;
        [apply (Consumes_skip _ Es); discriminate|].
      destruct (skipWhiteSpace s1) as [|d s2] eqn:Es1; [discriminate H|].
      destruct (d =? 93) eqn:E3.
      - apply N.eqb_eq in E3. subst d. injection H as _ <-.
        apply (Consumes_skip _ Es1); discriminate.
      - destruct (parseElements fuel s1) as [[vs r]|] eqn:Ee; [|discriminate H].
        injection H as _ <-. exact (IHe _ _ _ Ee). }
    destruct (c =? 34) eqn:E3.
    { apply N.eqb_eq in E3. subst c.
      destruct (stringBody s1) as [[v0 r]|] eqn:Eb; [|discriminate H].
      injection H as _ <-. exact (Consumes_skip_quote _ Es Eb). }
    apply Consumes_trans with (c :: s1); [rewrite <- Es; apply Consumes_ws|].
    destruct (startsWith (lit "true") (c :: s1)) eqn:Et.
    { injection H as _ <-.
      apply (@Consumes_keyword (lit "true")); [bare_lit | exact Et]. }
    destruct (startsWith (lit "false") (c :: s1)) eqn:Ef.
    { injection H as _ <-.
      apply (@Consumes_keyword (lit "false")); [bare_lit | exact Ef]. }
    destruct (startsWith (lit "null") (c :: s1)) eqn:En.
    { injection H as _ <-.
      apply (@Consumes_keyword (lit "null")); [bare_lit | exact En]. }
    destruct (numberLiteral (c :: s1)) as [[n r]|] eqn:Enum; [|discriminate H].
    injection H as _ <-. exact (Consumes_numberLiteral _ Enum).
  - intros s vs rest H. cbn [parseElements] in H.
    destruct (parseValue fuel s) as [[v r]|] eqn:Ev; [|discriminate H].
    apply Consumes_trans with r; [exact (IHv _ _ _ Ev)|].
    destruct (skipWhiteSpace r) as [|c r1] eqn:Er; [discriminate H|].
    destruct (c =? 93) eqn:E1.
    { apply N.eqb_eq in E1. subst c. injection H as _ <-.
      apply (Consumes_skip _ Er); discriminate. }
    destruct (c =? 44) eqn:E2; [|discriminate H].
    apply N.eqb_eq in E2. subst c.
    destruct (parseElements fuel r1) as [[vs' r2]|] eqn:Ee; [|discriminate H].
    injection H as _ <-.
    apply Consumes_trans with r1; [apply (Consumes_skip _ Er); discriminate|].
    exact (IHe _ _ _ Ee).
  - intros s ms rest H. cbn [parseMembers] in H.
    destruct (skipWhiteSpace s) as [|q s1] eqn:Es; [discriminate H|].
    destruct (q =? 34) eqn:Eq; [|discriminate H].
    apply N.eqb_eq in Eq. subst q.
    destruct (stringBody s1) as [[key s2]|] eqn:Ek; [|discriminate H].
    apply Consumes_trans with s2; [exact (Consumes_skip_quote _ Es Ek)|].
    destruct (skipWhiteSpace s2) as [|colon s3] eqn:Es2; [discriminate H|].
    destruct (colon =? 58) eqn:Ec; [|discriminate H].
    apply N.eqb_eq in Ec. subst colon.
    apply Consumes_trans with s3; [apply (Consumes_skip _ Es2); discriminate|].
    destruct (parseValue fuel s3) as [[v r]|] eqn:Ev; [|discriminate H].
    apply Consumes_trans with r; [exact (IHv _ _ _ Ev)|].
    destruct (skipWhiteSpace r) as [|c r1] eqn:Er; [discriminate H|].
    destruct (c =? 125) eqn:E1.
    { apply N.eqb_eq in E1. subst c. injection H as _ <-.
      apply (Consumes_skip _ Er); discriminate. }
    destruct (c =? 44) eqn:E2; [|discriminate H].
    apply N.eqb_eq in E2. subst c.
    destruct (parseMembers fuel r1) as [[ms' r2]|] eqn:Em; [|discriminate H].
    injection H as _ <-.
    apply Consumes_trans with r1; [apply (Consumes_skip _ Er); discriminate|].
    exact (IHm _ _ _ Em).
Qed.

(** *** String literals *)

Lemma first_quote_unique (P P' Q Q' : jsstring) :
  Forall (fun c => c <> 34) P -> Forall (fun c => c <> 34) P' ->
  P ++ 34 :: Q = P' ++ 34 :: Q' -> P = P' /\ Q = Q'.
Proof.
  intros HP. revert P'. induction HP as [|c P Hc HP IH]; intros P' HP' H.
  - destruct HP' as [|c' P' Hc' HP']; cbn [app] in H.
    + injection H as <-. now split.
    + injection H as E _. now symmetry in E.
  - destruct HP' as [|c' P' Hc' HP']; cbn [app] in H.
    + injection H as E _. contradiction.
    + injection H as <- H. destruct (IH _ HP' H) as [<- <-]. now split.
Qed.

Lemma hexDigit_not_quote (c x : N) : hexDigit c = Some x -> c <> 34.
Proof. intros H ->. vm_compute in H. discriminate H. Qed.

Lemma hex4_not_quote (a b c d x : N) :
  hex4 a b c d = Some x -> a <> 34 /\ b <> 34 /\ c <> 34 /\ d <> 34.
Proof.
  unfold hex4.
  destruct (hexDigit a) eqn:Ea; [|discriminate].
  destruct (hexDigit b) eqn:Eb; [|discriminate].
  destruct (hexDigit c) eqn:Ec; [|discriminate].
  destruct (hexDigit d) eqn:Ed; [|discriminate].
  intros _. repeat split; eapply hexDigit_not_quote; eassumption.
Qed.

(** The first quotation mark of a string body either closes it or
    follows a reverse solidus. *)
Lemma stringBody_first_quote (s v rest : jsstring) :
  stringBody s = Some (v, rest) ->
  exists P Q, s = P ++ 34 :: Q /\ Forall (fun c => c <> 34) P
              /\ (In 92 P \/ Q = rest).
Proof.
  revert v rest. induction s as [s IH] using length_ind. intros v rest H.
  destruct s as [|c s1]; [discriminate H|]. cbn [stringBody] in H.
  destruct (c =? 34) eqn:Ec.
  { apply N.eqb_eq in Ec. subst c. injection H as <- <-.
    exists [], s1. split; [reflexivity|]. split; [constructor | now right]. }
  apply N.eqb_neq in Ec.
  destruct (c =? 92) eqn:Eb.
  - apply N.eqb_eq in Eb. subst c.
    destruct s1 as [|e s2]; [discriminate H|].
    destruct (e =? 117) eqn:Eu.
    + apply N.eqb_eq in Eu. subst e.
      destruct s2 as [|h1 [|h2 [|h3 [|h4 s3]]]]; try discriminate H.
      destruct (hex4 h1 h2 h3 h4) eqn:Eh; [|discriminate H].
      apply hex4_not_quote in Eh as (N1 & N2 & N3 & N4).
      apply push_some in H as (v' & H & _).
      apply IH in H as (P & Q & -> & HP & _); [|cbn; lia].
      exists (92 :: 117 :: h1 :: h2 :: h3 :: h4 :: P), Q.
      split; [reflexivity|]. split; [|left; now left].
      repeat (constructor; [assumption || discriminate|]). exact HP.
    + destruct (escape e) eqn:Ee; [|discriminate H].
      apply push_some in H as (v' & H & _).
      destruct (e =? 34) eqn:Eq.
      * apply N.eqb_eq in Eq. subst e. exists [92], s2.
        split; [reflexivity|]. split; [|left; now left].
        constructor; [discriminate | constructor].
      * apply N.eqb_neq in Eq.
        apply IH in H as (P & Q & -> & HP & _); [|cbn; lia].
        exists (92 :: e :: P), Q.
        split; [reflexivity|]. split; [|left; now left].
        constructor; [discriminate|]. constructor; assumption.
  - destruct (c <? 32); [discriminate H|].
    apply push_some in H as (v' & H & _).
    apply IH in H as (P & Q & -> & HP & HQ); [|cbn; lia].
    exists (c :: P), Q. split; [reflexivity|].
    split; [constructor; assumption|].
    destruct HQ as [HQ | HQ]; [left; now right | now right].
Qed.

Lemma skip_nil_ws (r : jsstring) :
  skipWhiteSpace r = [] -> Forall (fun c => isJsonWhiteSpace c = true) r.
Proof.
  induction r as [|c r IH]; [constructor|]. cbn [skipWhiteSpace].
  destruct (isJsonWhiteSpace c) eqn:E; [|discriminate].
  intros H. constructor; [exact E | exact (IH H)].
Qed.

Lemma ws_not_quote (r : jsstring) :
  Forall (fun c => isJsonWhiteSpace c = true) r -> Forall (fun c => c <> 34) r.
Proof.
  apply Forall_impl. intros c H.
  destruct (ws_cases c H) as [-> | [-> | [-> | ->]]]; discriminate.
Qed.

Lemma bare_not_quote (P : jsstring) : bare P -> Forall (fun c => c <> 34) P.
Proof. apply Forall_impl. now intros c [H _]. Qed.

(** A text that starts inside a string literal, at a position where the
    rest of the literal still lexes, is not a JSON text. *)
Lemma tail_unparseable (X v R : jsstring) :
  stringBody X = Some (v, R) ->
  Forall (fun c => c <> 34) R ->
  JSON_parse X = None.
Proof.
  intros Hbody HR. unfold JSON_parse.
  destruct (parseValue (2 * length X + 2) X) as [[v0 rest]|] eqn:E;
    [|reflexivity].
  destruct (skipWhiteSpace rest) as [|c r'] eqn:Ews; [exfalso|reflexivity].
  apply skip_nil_ws, ws_not_quote in Ews.
  destruct (parse_consumes (2 * length X + 2)) as (Hv & _ & _).
  destruct (Hv _ _ _ E) as (c & HX & HG).
  destruct (stringBody_first_quote _ Hbody) as (P0 & Q0 & HX0 & HP0 & Hcase).
  destruct HG as [Hbare | (P & Q & -> & HP & HQ)].
  - assert (Hall : Forall (fun x => x <> 34) X).
    { rewrite HX. apply Forall_app. split; [now apply bare_not_quote | exact Ews]. }
    rewrite HX0 in Hall. apply Forall_app in Hall as [_ Hall].
    inversion Hall as [|? ? Hq _]. now apply Hq.
  - rewrite <- app_assoc in HX. cbn [app] in HX. rewrite HX0 in HX.
    destruct (@first_quote_unique P0 P Q0 (Q ++ rest) HP0 (bare_not_quote HP) HX)
      as [-> HQ0].
    destruct Hcase as [H92 | ->].
    + unfold bare in HP. rewrite Forall_forall in HP.
      destruct (HP _ H92) as [_ Hn]. now apply Hn.
    + assert (Hin : In 34 (Q ++ rest)) by (apply in_or_app; now left).
      rewrite <- HQ0 in Hin. rewrite Forall_forall in HR.
      now apply (HR _ Hin).
Qed.

(** A string body followed by more text lexes the same way. *)
Lemma stringBody_extend (s v rest t : jsstring) :
  stringBody s = Some (v, rest) -> stringBody (s ++ t) = Some (v, rest ++ t).
Proof.
  revert v rest. induction s as [s IH] using length_ind. intros v rest H.
  destruct s as [|c s1]; [discriminate H|]. cbn [stringBody app] in *.
  destruct (c =? 34).
  { injection H as <- <-. reflexivity. }
  destruct (c =? 92).
  - destruct s1 as [|e s2]; [discriminate H|]. cbn [app].
    destruct (e =? 117).
    + destruct s2 as [|h1 [|h2 [|h3 [|h4 s3]]]]; try discriminate H. cbn [app].
      destruct (hex4 h1 h2 h3 h4); [|discriminate H].
      apply push_some in H as (v' & H & ->).
      rewrite (IH s3 ltac:(cbn; lia) _ _ H). reflexivity.
    + destruct (escape e); [|discriminate H].
      apply push_some in H as (v' & H & ->).
      rewrite (IH s2 ltac:(cbn; lia) _ _ H). reflexivity.
  - destruct (c <? 32); [discriminate H|].
    apply push_some in H as (v' & H & ->).
    rewrite (IH s1 ltac:(cbn; lia) _ _ H). reflexivity.
Qed.

(** A proper prefix of a string body either does not lex or ends where
    the body ends. *)
Lemma stringBody_prefix (b1 b2 v r : jsstring) :
  stringBody (b1 ++ b2) = Some (v, r) ->
  stringBody b1 = None
  \/ exists r1, stringBody b1 = Some (v, r1) /\ r = r1 ++ b2.
Proof.
  revert v r. induction b1 as [b1 IH] using length_ind. intros v r H.
  destruct b1 as [|c s1]; [now left|]. cbn [stringBody app] in *.
  destruct (c =? 34).
  { injection H as <- <-. right. now exists s1. }
  destruct (c =? 92).
  - destruct s1 as [|e s2]; [now left|]. cbn [app] in H.
    destruct (e =? 117).
    + destruct s2 as [|h1 [|h2 [|h3 [|h4 s3]]]]; try now left.
      cbn [app] in H.
      destruct (hex4 h1 h2 h3 h4); [|discriminate H].
      apply push_some in H as (v' & H & ->).
      destruct (IH s3 ltac:(cbn; lia) _ _ H) as [-> | (r1 & -> & ->)];
        [now left | right; now exists r1].
    + destruct (escape e); [|discriminate H].
      apply push_some in H as (v' & H & ->).
      destruct (IH s2 ltac:(cbn; lia) _ _ H) as [-> | (r1 & -> & ->)];
        [now left | right; now exists r1].
  - destruct (c <? 32); [discriminate H|].
    apply push_some in H as (v' & H & ->).
    destruct (IH s1 ltac:(cbn; lia) _ _ H) as [-> | (r1 & -> & ->)];
      [now left | right; now exists r1].
Qed.

(** A space inside a string body is a character of its own, so the body
    lexes from the position after it too. *)
Lemma stringBody_after_space (pre X v : jsstring) :
  stringBody (pre ++ 32 :: X) = Some (v, []) ->
  exists v', stringBody X = Some (v', []).
Proof.
  revert v. induction pre as [pre IH] using length_ind. intros v H.
  destruct pre as [|c s1].
  { cbn [app stringBody] in H. cbn in H.
    apply push_some in H as (v' & H & _). now exists v'. }
  cbn [stringBody app] in H.
  destruct (c =? 34).
  { injection H as _ H. destruct s1; discriminate H. }
  destruct (c =? 92).
  - destruct s1 as [|e s2].
    { cbn [app] in H. cbn in H. discriminate H. }
    cbn [app] in H. destruct (e =? 117).
    + destruct s2 as [|h1 [|h2 [|h3 [|h4 s3]]]]; cbn [app] in H.
      * destruct X as [|x1 [|x2 [|x3 X]]]; discriminate H.
      * destruct X as [|x1 [|x2 X]]; try discriminate H.
        unfold hex4 in H. destruct (hexDigit h1); [|discriminate H].
        cbn in H. discriminate H.
      * destruct X as [|x1 X]; try discriminate H.
        unfold hex4 in H. destruct (hexDigit h1); [|discriminate H].
        destruct (hexDigit h2); [|discriminate H].
        cbn in H. discriminate H.
      * unfold hex4 in H. destruct (hexDigit h1); [|discriminate H].
        destruct (hexDigit h2); [|discriminate H].
        destruct (hexDigit h3); [|discriminate H].
        cbn in H. discriminate H.
      * destruct (hex4 h1 h2 h3 h4); [|discriminate H].
        apply push_some in H as (v' & H & _).
        exact (IH s3 ltac:(cbn; lia) _ H).
    + destruct (escape e); [|discriminate H].
      apply push_some in H as (v' & H & _).
      exact (IH s2 ltac:(cbn; lia) _ H).
  - destruct (c <? 32); [discriminate H|].
    apply push_some in H as (v' & H & _).
    exact (IH s1 ltac:(cbn; lia) _ H).
Qed.
End HostFacts.

(** *** Lines of the shape [data: {"chunk": "..."}] on the host *)

Module ChunkLine.

Local Open Scope N_scope.

Lemma skip_blank (w : jsstring) : blank w -> Host.skipWhiteSpace w = [].
Proof.
  induction 1 as [|c w Hc _ IH]; [reflexivity|].
  cbn [Host.skipWhiteSpace]. now rewrite Hc.
Qed.

Lemma skip_blank_app (w : jsstring) (c : N) (r : jsstring) :
  blank w -> Host.isJsonWhiteSpace c = false ->
  Host.skipWhiteSpace (w ++ c :: r) = c :: r.
Proof.
  intros Hw Hc. induction Hw as [|d w Hd _ IH]; cbn [app Host.skipWhiteSpace].
  - now rewrite Hc.
  - now rewrite Hd.
Qed.

Lemma parseValue_blank (fuel : nat) (w : jsstring) :
  blank w -> Host.parseValue fuel w = None.
Proof.
  intros Hw. destruct fuel; [reflexivity|].
  cbn [Host.parseValue]. now rewrite (skip_blank Hw).
Qed.

Lemma parseValue_string (fuel : nat) (w b : jsstring) :
  blank w ->
  Host.parseValue (S fuel) (w ++ 34 :: b)
  = match Host.stringBody b with
    | Some (v, rest) => Some (JStr v, rest)
    | None => None
    end.
Proof.
  intros Hw. cbn [Host.parseValue].
  rewrite (@skip_blank_app w 34 b Hw eq_refl). reflexivity.
Qed.

(** The object with the one key [chunk]: what is parsed is the value
    after the colon. *)
Lemma chunk_object (fuel : nat) (t : jsstring) :
  Host.parseValue (S (S fuel)) (Example.wire "{'chunk':" ++ t)
  = match Host.parseValue fuel t with
    | None => None
    | Some (v, rest) =>
        match Host.skipWhiteSpace rest with
        | c :: rest' =>
            if c =? 125 then Some (JObj [(lit "chunk", v)], rest')
            else if c =? 44 then
              match Host.parseMembers fuel rest' with
              | Some (ms, rest'') => Some (JObj ((lit "chunk", v) :: ms), rest'')
              | None => None
              end
            else None
        | [] => None
        end
    end.
Proof.
  change (Example.wire "{'chunk':" ++ t)
    with (123 :: 34 :: 99 :: 104 :: 117 :: 110 :: 107 :: 34 :: 58 :: t).
  cbn. destruct (Host.parseValue fuel t) as [[v rest]|]; [|reflexivity].
  destruct (Host.skipWhiteSpace rest) as [|c rest']; [reflexivity|].
  destruct (c =? 125); [reflexivity|].
  destruct (c =? 44); [|reflexivity].
  destruct (Host.parseMembers fuel rest') as [[ms rest'']|]; reflexivity.
Qed.

Lemma JSON_parse_chunk_none (t : jsstring) :
  (forall fuel v r, Host.parseValue fuel t = Some (v, r) ->
                    Host.skipWhiteSpace r = []) ->
  Host.JSON_parse (Example.wire "{'chunk':" ++ t) = None.
Proof.
  intros H. unfold Host.JSON_parse.
  generalize (2 * length (Example.wire "{'chunk':" ++ t) + 2)%nat.
  intros [|[|fuel]]; [reflexivity | reflexivity |].
  rewrite chunk_object.
  destruct (Host.parseValue fuel t) as [[v r]|] eqn:E; [|reflexivity].
  now rewrite (H _ _ _ E).
Qed.

Lemma slice_data (X : jsstring) : slice 6 (lit "data: " ++ X) = X.
Proof.
  unfold slice. change (6 <? 0)%Z with false. cbv iota.
  rewrite Z.min_l by (rewrite length_app; cbn [length lit]; cbn; lia).
  reflexivity.
Qed.

Lemma payload_data (X : jsstring) :
  payload Host.platform (lit "data: " ++ X) = Host.JSON_parse X.
Proof.
  unfold payload.
  change (startsWith (lit "data: ") (lit "data: " ++ X)) with true.
  cbv iota. now rewrite slice_data.
Qed.

Lemma payload_head (c : N) (t : jsstring) :
  c <> 100 -> payload Host.platform (c :: t) = None.
Proof.
  intros Hc. unfold payload.
  change (lit "data: ") with (100 :: lit "ata: "). cbn [startsWith].
  unfold code_eqb. apply N.eqb_neq in Hc. rewrite N.eqb_sym, Hc. reflexivity.
Qed.

Lemma payload_blank_quote (z t : jsstring) :
  blank z -> payload Host.platform (z ++ 34 :: t) = None.
Proof.
  intros Hz. destruct Hz as [|c z' Hc _]; cbn [app]; apply payload_head;
    [discriminate|].
  destruct (HostFacts.ws_cases c Hc) as [-> | [-> | [-> | ->]]]; discriminate.
Qed.

Lemma startsWith_inside (p a : jsstring) (c : N) (t : jsstring) :
  ~ In c p -> startsWith p (a ++ c :: t) = true -> startsWith p a = true.
Proof.
  revert a. induction p as [|x p IH]; intros a Hc H; [reflexivity|].
  destruct a as [|y a]; cbn [app startsWith] in *.
  - apply andb_true_iff in H as [H _]. unfold code_eqb in H.
    apply N.eqb_eq in H. exfalso. apply Hc. now left.
  - apply andb_true_iff in H as [H1 H2]. rewrite H1. cbn [andb].
    apply IH; [|exact H2]. intros Hin. apply Hc. now right.
Qed.

Lemma suffix_of_two (A : Type) (b1 l body : list A) (x y : A) :
  b1 ++ l = body ++ [x; y] -> l <> [] ->
  (l = [y] /\ b1 = body ++ [x])
  \/ exists l0, l = l0 ++ [x; y] /\ body = b1 ++ l0.
Proof.
  intros H Hl. apply app_eq_app in H as (z & [[-> H] | [-> H]]).
  - destruct z as [|a [|b [|c z]]]; cbn [app] in H.
    + right. exists []. split; [now symmetry | now rewrite !app_nil_r].
    + injection H as <- <-. now left.
    + injection H as <- <- H. now symmetry in H.
    + injection H as _ _ H. discriminate H.
  - right. now exists z.
Qed.

Section Cut.

Variables (w body piece tw : jsstring).
Hypothesis blank_w : blank w.
Hypothesis blank_tw : blank tw.
Hypothesis body_lexes : Host.stringBody (body ++ [34]) = Some (piece, []).

Lemma body_then (t : jsstring) :
  Host.stringBody (body ++ 34 :: t) = Some (piece, t).
Proof.
  change (body ++ 34 :: t) with (body ++ [34] ++ t). rewrite app_assoc.
  now rewrite (@HostFacts.stringBody_extend _ _ _ t body_lexes).
Qed.

(** The whole line carries the fragment. *)
Lemma whole_line :
  piece <> [] -> fragment_line Host.platform (chunkCore w body ++ tw) piece.
Proof.
  intros Hpiece. exists [(lit "chunk", JStr piece)].
  split; [|repeat split; try reflexivity; exact Hpiece].
  unfold chunkCore.
  change (Example.wire "data: {'chunk':")
    with (lit "data: " ++ Example.wire "{'chunk':").
  rewrite <- !app_assoc. rewrite payload_data. unfold Host.JSON_parse.
  match goal with
  | |- context [Host.parseValue ?f _] =>
      assert (Hfuel : exists fuel, f = S (S (S fuel)));
      [exists (f - 3)%nat; rewrite !length_app;
       change (length (Example.wire "{'chunk':")) with 9%nat; lia|]
  end.
  destruct Hfuel as [fuel ->]. rewrite chunk_object.
  cbn [app]. rewrite <- ?app_assoc. cbn [app].
  rewrite (parseValue_string fuel _ blank_w), body_then.
  cbn [Host.skipWhiteSpace]. change (Host.isJsonWhiteSpace 125) with false.
  cbv iota. change (125 =? 125) with true. cbv iota.
  now rewrite (skip_blank blank_tw).
Qed.

Variables (h1 l : jsstring).
Hypothesis cut : h1 ++ l = chunkCore w body.
Hypothesis head_nonempty : h1 <> [].
Hypothesis tail_nonempty : l <> [].

(** The part before the cut is not a payload line. *)
Lemma head_dead : payload Host.platform h1 = None.
Proof.
  unfold chunkCore in cut.
  apply app_eq_app in cut as (z & [[Hh1 HW] | [HH Hl]]).
  - (* the prefix and the key are whole *)
    rewrite Hh1.
    change (Example.wire "data: {'chunk':")
      with (lit "data: " ++ Example.wire "{'chunk':").
    rewrite <- app_assoc, payload_data. apply JSON_parse_chunk_none.
    intros fuel v r Hparse.
    apply app_eq_app in HW as (z2 & [[Hw _] | [Hz Hq]]).
    + rewrite parseValue_blank in Hparse; [discriminate Hparse|].
      rewrite Hw in blank_w. unfold blank in blank_w. now apply Forall_app in blank_w.
    + destruct z2 as [|q b1]; cbn [app] in Hq.
      * rewrite app_nil_r in Hz. subst z.
        rewrite (parseValue_blank _ blank_w) in Hparse. discriminate Hparse.
      * injection Hq as <- Hb. subst z.
        destruct fuel as [|fuel]; [discriminate Hparse|].
        rewrite (parseValue_string fuel _ blank_w) in Hparse.
        pose proof (body_then [125]) as Hfull. rewrite Hb in Hfull.
        destruct (@HostFacts.stringBody_prefix _ _ _ _ Hfull)
          as [Hnone | (r1 & Hsome & Hr)].
        -- rewrite Hnone in Hparse. discriminate Hparse.
        -- rewrite Hsome in Hparse. injection Hparse as _ <-.
           destruct r1 as [|c r1]; [reflexivity|].
           injection Hr as _ Hr. destruct r1; [|discriminate Hr].
           cbn [app] in Hr. now symmetry in Hr.
  - (* the cut is inside the prefix or the key *)
    assert (Hall : Forall (fun k => payload Host.platform
                             (firstn k (Example.wire "data: {'chunk':")) = None)
                     (seq 1 15)).
    { repeat constructor; vm_compute; reflexivity. }
    rewrite Forall_forall in Hall.
    assert (Hlen : length (h1 ++ z) = 15%nat) by now rewrite <- HH.
    rewrite length_app in Hlen.
    assert (E : h1 = firstn (length h1) (Example.wire "data: {'chunk':")).
    { rewrite HH. rewrite firstn_app, Nat.sub_diag, firstn_all.
      cbn [firstn]. now rewrite app_nil_r. }
    rewrite E. apply Hall. apply in_seq.
    destruct h1; [now contradiction head_nonempty|]. cbn [length] in *. lia.
Qed.

(** Nor is the part after it, with whatever white space ends the line. *)
Lemma tail_dead : payload Host.platform (l ++ tw) = None.
Proof.
  unfold chunkCore in cut.
  apply app_eq_app in cut as (z & [[Hh1 HW] | [HH Hl]]).
  - apply app_eq_app in HW as (z2 & [[Hw Hl] | [Hz Hq]]).
    + rewrite Hl, <- app_assoc. cbn [app]. apply payload_blank_quote.
      rewrite Hw in blank_w. unfold blank in blank_w. now apply Forall_app in blank_w.
    + destruct z2 as [|q b1]; cbn [app] in Hq.
      * rewrite <- Hq. cbn [app]. apply payload_head. discriminate.
      * injection Hq as _ Hb.
        destruct (@suffix_of_two _ _ _ _ _ _ (eq_sym Hb) tail_nonempty)
          as [[-> _] | (l0 & -> & Hbody)].
        { cbn [app]. apply payload_head. discriminate. }
        rewrite <- app_assoc. cbn [app].
        destruct (startsWith (lit "data: ") (l0 ++ 34 :: 125 :: tw)) eqn:Es.
        2:{ unfold payload. now rewrite Es. }
        apply startsWith_inside in Es.
        2:{ intros Hin. vm_compute in Hin.
            repeat (destruct Hin as [Hin|Hin]; [discriminate Hin|]).
            exact Hin. }
        apply HostFacts.startsWith_split in Es.
        set (X0 := skipn (length (lit "data: ")) l0) in Es. rewrite Es.
        rewrite <- app_assoc, payload_data.
        pose proof body_lexes as Hfull. rewrite Hbody, Es in Hfull.
        change (lit "data: " ++ X0) with (lit "data:" ++ 32 :: X0) in Hfull.
        rewrite <- !app_assoc in Hfull. cbn [app] in Hfull.
        change (100 :: 97 :: 116 :: 97 :: 58 :: 32 :: X0 ++ [34])
          with (lit "data:" ++ 32 :: (X0 ++ [34])) in Hfull.
        rewrite app_assoc in Hfull.
        destruct (@HostFacts.stringBody_after_space _ _ _ Hfull) as [v' Hv'].
        apply (@HostFacts.tail_unparseable _ v' (125 :: tw)).
        -- change (X0 ++ 34 :: 125 :: tw) with (X0 ++ [34] ++ 125 :: tw).
           rewrite app_assoc.
           exact (@HostFacts.stringBody_extend _ _ _ (125 :: tw) Hv').
        -- constructor; [discriminate|]. now apply HostFacts.ws_not_quote.
  - rewrite Hl. destruct z as [|c z].
    + cbn [app]. rewrite <- app_assoc. cbn [app].
      now apply payload_blank_quote.
    + cbn [app]. apply payload_head.
      assert (Hall : Forall (fun x => x <> 100)
                       (tl (Example.wire "data: {'chunk':"))).
      { repeat constructor; discriminate. }
      destruct h1 as [|c0 h1']; [now contradiction head_nonempty|].
      rewrite HH in Hall. cbn [app tl] in Hall.
      apply Forall_app in Hall as [_ Hall].
      now inversion Hall.
Qed.

End Cut.
End ChunkLine.


Module CutExamples.

Import Example.


(** With the whole line in one read the fragment is appended; cut, the
    content stays empty. *)
Lemma cut_inside_loses_the_fragment :
  assistantContent (run (reply [concat cutInsideCR] EndOfData) (asking "hi"))
  = lit "partial"
  /\ assistantContent (run (reply cutInsideCR EndOfData) (asking "hi")) = [].
Proof. split; evaluate. Qed.

End CutExamples.
